(** * Link-budget worksheet [Data_Link_Calculations.ipynb]

    A shallow embedding of the notebook's code cells: the parameter table
    [par] with its start-up merge loop, the photodiode calculator
    [calculate_pd_current] and the two definitions of
    [calculate_pt_current].

    Numbers, in two readings.  The cells are first read in exact real
    arithmetic: every Python [float] (and the few [int] literals that are
    only ever used in float arithmetic) is a real number of [R] and the
    operators are the exact ones, so that rounding, underflow, overflow,
    infinities and NaN do not occur.  What Python raises on exact values
    is kept: [ZeroDivisionError] of float division, [ValueError] of
    [math.sqrt] and [math.log10], [KeyError] of a subscript, [NameError]
    of an unbound global.  This reading carries the statements that do not
    turn on rounding: the merge loop, which keys and globals a cell reads,
    where an exception comes from, the three decimals a [.3f] field
    displays.  The module [Binary64] then reads the photodiode calculator
    on IEEE binary64, which is what the interpreter computes; the
    statements about the values of its arithmetic are made there.

    Dictionaries are [gmap string _]; text printed by [print] is a list of
    [line]s threaded through a small state-and-exception monad. *)

From Stdlib Require Import Reals Lra Psatz.
From Stdlib Require Floats.
From stdpp Require Import gmap strings list fin_maps.

(** ** Python values, exceptions, printed output *)

Module Py.

(** A sampled spectral response: the dict literal
    [{"x": [...], "y": [...]}] of the parameter table. *)
Record curve := Curve { curve_x : list R; curve_y : list R }.

(** The values stored in a section of [par]: a number, or a curve. *)
Inductive pyval :=
| VFloat (r : R)
| VCurve (c : curve).

Inductive exn :=
| KeyError (key : string)
| NameError (name : string)
| TypeError
| ZeroDivisionError
| OverflowError
| ValueError.

(** The conversion of an f-string replacement field: [{v:.3f}] is
    [Fixed 3], a bare [{v}] is [Repr]. *)
Inductive numfmt :=
| Fixed (digits : nat)
| Repr.

(** One call of [print(f'<before>{v:<fmt>}<after>')]. *)
Record line := Line {
  before : string;
  shown : R;
  fmt : numfmt;
  after : string
}.

(** A computation that may print and may raise. *)
Definition M (A : Type) : Type := list line → list line * (exn + A).

Definition ret {A} (a : A) : M A := λ out, (out, inr a).
Definition raise {A} (e : exn) : M A := λ out, (out, inl e).
Definition bind {A B} (m : M A) (k : A → M B) : M B :=
  λ out, match m out with
         | (out', inr a) => k a out'
         | (out', inl e) => (out', inl e)
         end.
Definition print (l : line) : M unit := λ out, (out ++ [l], inr tt).

(** Run from an empty console. *)
Definition run {A} (m : M A) : list line * (exn + A) := m [].
Definition stdout {A} (m : M A) : list line := fst (run m).
Definition outcome {A} (m : M A) : exn + A := snd (run m).

End Py.

Import Py.

(** stdpp's monad notations [x ← m; k] and [m;; k] at [M]. *)
#[global] Instance M_ret : MRet M := @ret.
#[global] Instance M_bind : MBind M := λ A B k m, bind m k.

Local Open Scope R_scope.

(** ** Primitive operations on floats *)

(** [x / y] on Python floats, exact reading: only a zero divisor raises. *)
Definition truediv (x y : R) : M R :=
  if Req_dec_T y 0 then raise ZeroDivisionError else ret (x / y).

(** [math.sqrt(x)], exact reading. *)
Definition math_sqrt (x : R) : M R :=
  if Rlt_dec x 0 then raise ValueError else ret (sqrt x).

(** Decimal logarithm on the reals. *)
Definition log10 (x : R) : R := ln x / ln 10.

(** [math.log10(x)], exact reading. *)
Definition math_log10 (x : R) : M R :=
  if Rlt_dec 0 x then ret (log10 x) else raise ValueError.

(** [math.atan(x)], exact reading. *)
Definition math_atan (x : R) : M R := ret (atan x).

(** Rounding to the nearest integer, ties to even: what a [.nf] field does
    to the digits after the n-th decimal. *)
Definition round_half_even (x : R) : Z :=
  let n := Int_part x in
  let f := frac_part x in
  if Rlt_dec f (1 / 2) then n
  else if Rlt_dec (1 / 2) f then (n + 1)%Z
  else if Z.even n then n else (n + 1)%Z.

(** The number a [Fixed n] field displays, as an integer count of units of
    [10^-n]: [{0.0234:.3f}] shows [0.023], that is [23]. *)
Definition fixed_digits (n : nat) (x : R) : Z := round_half_even (x * 10 ^ n).

(** ** The parameter table *)

(** [d[k]] on a dict. *)
Definition getitem {V} (d : gmap string V) (k : string) : M V :=
  match d !! k with
  | Some v => ret v
  | None => raise (KeyError k)
  end.

(** A subscript whose value is then used as a number. *)
Definition as_float (v : pyval) : M R :=
  match v with
  | VFloat r => ret r
  | VCurve _ => raise TypeError
  end.

(** A subscript whose value is then subscripted by ['x'] and ['y']. *)
Definition as_curve (v : pyval) : M curve :=
  match v with
  | VCurve c => ret c
  | VFloat _ => raise TypeError
  end.

(** A subscript whose value the very next operation uses as a number, so
    that a value of the wrong type raises [TypeError] before anything else
    is evaluated. *)
Definition getfloat (d : gmap string pyval) (k : string) : M R :=
  v ← getitem d k; as_float v.

Definition getcurve (d : gmap string pyval) (k : string) : M curve :=
  v ← getitem d k; as_curve v.

Definition als_spectral_response : curve :=
  Curve
    [299.372; 340.167; 377.824; 426.778; 470.711; 528.452; 569.874; 607.531;
     618.828; 627.615; 635.146; 638.912; 652.72; 664.017; 667.782; 685.356;
     697.908; 726.778; 749.372; 843.515; 894.351]
    [3.659; 5.488; 9.451; 22.866; 40.244; 63.11; 81.402; 94.512; 96.646;
     99.695; 96.341; 79.878; 60.366; 40.244; 32.317; 19.512; 12.805; 9.756;
     7.927; 8.232; 7.317].

Definition led_spectral_response : curve :=
  Curve
    [373.584; 439.648; 489.746; 537.5; 554.199; 563.281; 569.434; 574.414;
     579.688; 588.184; 590.82; 592.578; 595.215; 597.559; 598.145; 601.953;
     606.934; 610.742; 618.652; 630.078; 793.555; 796.631]
    [0.005; 0.005; 0.004; 0.002; 0.008; 0.031; 0.067; 0.125; 0.274; 0.806;
     0.993; 0.994; 0.776; 0.475; 0.318; 0.185; 0.077; 0.034; 0.01; 0.004;
     0.001; 0.004].

(** The dict literal assigned to [par], before the merge loop runs. *)
Definition par_literal : gmap string (gmap string pyval) :=
  <["common" := <["distance" := VFloat 10e-3]> ∅]>
  (<["uplink" :=
      <["led_Ie" := VFloat (145.0e-3 / 100 * 20)]>
      (<["led_theta" := VFloat 20]>
      (<["led_current" := VFloat 20e-3]>
      (<["pd_eff" := VFloat 32e-6]>
      (<["pd_Ir0" := VFloat 30e-9]> ∅))))]>
  (<["downlink" :=
      <["als_IPH3" := VFloat 520e-6]>
      (<["led_IV_typ" := VFloat 60e-3]>
      (<["als_spectral_response" := VCurve als_spectral_response]>
      (<["led_spectral_response" := VCurve led_spectral_response]> ∅)))]>
   ∅)).

(** The inner loop
    [for k in par['common']: if k not in par[sk]: par[sk][k] = par['common'][k]]
    run on the section [sec = par[sk]].  [map_fold] visits the keys in an
    order of its own; that the order does not matter is proved with the
    properties of the merge. *)
Definition merge_section (common sec : gmap string pyval) : gmap string pyval :=
  map_fold (λ k v acc, match acc !! k with
                       | Some _ => acc
                       | None => <[k := v]> acc
                       end) sec common.

(** One turn of the outer loop [for sk in par: if sk != 'common': ...] on
    the table [p] as the earlier turns left it. *)
Definition merge_step (sk : string) (p : gmap string (gmap string pyval))
  : exn + gmap string (gmap string pyval) :=
  if decide (sk = "common") then inr p
  else match p !! "common" with
       | None => inl (KeyError "common")
       | Some common =>
           match p !! sk with
           | None => inl (KeyError sk)
           | Some sec => inr (<[sk := merge_section common sec]> p)
           end
       end.

(** The start-up merge loop over the keys of [par]. *)
Definition merge_defaults (par : gmap string (gmap string pyval))
  : exn + gmap string (gmap string pyval) :=
  map_fold (λ sk _ acc, match acc with
                        | inr p => merge_step sk p
                        | inl e => inl e
                        end) (inr par) par.

(** ** Module-level state of the notebook *)

(** The two global names the calculators read: [par], and [spec], which is
    unbound until the cell that assigns it has run. *)
Record globals := Globals {
  par : gmap string (gmap string pyval);
  spec : option curve
}.

(** Reading the global name [spec]. *)
Definition global_spec (g : globals) : M curve :=
  match spec g with
  | Some c => ret c
  | None => raise (NameError "spec")
  end.


(** The first line of the cell that binds [spec]:
    [spec = par['downlink']['als_spectral_response']]. *)
Definition cell_spec (g : globals) : exn + globals :=
  match outcome (downlink ← getitem (par g) "downlink";
                 getcurve downlink "als_spectral_response") with
  | inr c => inr (Globals (par g) (Some c))
  | inl e => inl e
  end.

(** ** Solid angle *)

(** The right-hand side of [angle_norm = 4*math.atan(a*b / (2*d*math.sqrt(4*(d**2) + a**2 + b**2)))],
    which the three calculators share word for word; exact reading. *)
Definition angle_norm (a b d : R) : M R :=
  r ← math_sqrt (4 * (d ^ 2) + a ^ 2 + b ^ 2);
  q ← truediv (a * b) (2 * d * r);
  t ← math_atan q;
  mret (4 * t).

(** The pyramid solid-angle formula for a square of side [s] seen from
    distance [d] on its axis. *)
Definition pyramid_solid_angle (s d : R) : R :=
  4 * atan (s ^ 2 / (2 * d * sqrt (4 * d ^ 2 + 2 * s ^ 2))).

(** ** Photodiode calculator *)

(** [20*math.log10(signal/dark_current)], the SNR in decibels. *)
Definition snr_db (signal dark_current : R) : M R :=
  q ← truediv signal dark_current;
  l ← math_log10 q;
  mret (20 * l).

(** The two subscripts of [p['led_Ie'] * p['led_current']] are both
    evaluated before the product looks at their types. *)
Definition calculate_pd_current (g : globals) : M unit :=
  p ← getitem (par g) "uplink";
  let a := 1e-2 in
  let b := a in
  d ← getfloat p "distance";
  angle_norm ← angle_norm a b d;
  led_Ie ← getitem p "led_Ie";
  led_current ← getitem p "led_current";
  led_Ie ← as_float led_Ie;
  led_current ← as_float led_current;
  let irradiance_pd := led_Ie * led_current / 20e-3 * angle_norm in
  pd_eff ← getfloat p "pd_eff";
  let current_pd := pd_eff * irradiance_pd in
  print (Line "Photodiode irradiance: " irradiance_pd (Fixed 3) " mW/cm^2");;
  print (Line "Photodiode current: " (current_pd * 1e6) (Fixed 3) " µA");;
  pd_Ir0 ← getfloat p "pd_Ir0";
  snr ← snr_db current_pd pd_Ir0;
  print (Line "Photodiode SNR: " snr Repr " dB").

(** ** The colour-science and scipy names the notebook calls *)

(** What the notebook takes from the [colour] package and from
    [scipy.constants]; none of it is code of the repository, so it enters
    as an interface.  Spectral distributions are [curve]s (domain [x],
    values [y]). *)
Class Colour := {
  (** [colour.colorimetry.SDS_LEFS_PHOTOPIC['CIE 1924 Photopic Standard Observer']] *)
  photopic_observer : curve;
  (** [colour.sd_CIE_standard_illuminant_A()] *)
  sd_CIE_standard_illuminant_A : curve;
  (** [sd.interpolate(obs.shape)], as a function of [obs] and [sd] *)
  interpolate : curve → curve → curve;
  (** [colour.luminous_efficiency(sd, lef)] *)
  luminous_efficiency : curve → curve → R;
  (** [colour.luminous_efficacy(sd)] *)
  luminous_efficacy : curve → R;
  (** [scipy.constants.sigma] *)
  sigma : R
}.

(** [max(values)] of a non-empty sequence. *)
Fixpoint maximum (v : R) (vs : list R) : R :=
  match vs with
  | [] => v
  | w :: ws => Rmax v (maximum w ws)
  end.

(** Modelled from the spec: [SpectralDistribution.normalise] is a method of
    the [colour] package, whose code is not in the repository.  The spec's
    "normalizes" is taken as that package documents it: every value is
    multiplied by [1 / max(values) * factor] with [factor = 1] (a zero
    maximum gives zeros, as the package's guarded division does); [max] of
    an empty sequence raises [ValueError]. *)
Definition normalised (sd : curve) : curve :=
  match curve_y sd with
  | [] => sd
  | v :: vs =>
      Curve (curve_x sd) (map (λ y, y * (1 / maximum v vs * 1)) (curve_y sd))
  end.

(** [sd.normalise()], with [normalised] for the values it leaves. *)
Definition normalise (sd : curve) : M curve :=
  match curve_y sd with
  | [] => raise ValueError
  | _ :: _ => mret (normalised sd)
  end.

(** [colour.SpectralDistribution(spec['y'], spec['x'])]. *)
Definition SpectralDistribution (y x : list R) : curve := Curve x y.

(** Multiplying all y-values of a sampled curve by [k]. *)
Definition scale_curve (k : R) (c : curve) : curve :=
  Curve (curve_x c) (map (Rmult k) (curve_y c)).

Section Phototransistor.
Context `{Colour}.

(** ** Phototransistor calculator, first definition *)

(** The luminous-efficiency overlap [eff] of the LED curve against the
    phototransistor curve, both normalised and put on the observer's grid. *)
Definition overlap (g : globals) : M R :=
  let obs := photopic_observer in
  downlink ← getitem (par g) "downlink";
  spec ← getcurve downlink "als_spectral_response";
  sd ← normalise (SpectralDistribution (curve_y spec) (curve_x spec));
  let dis_pt := interpolate obs sd in
  downlink ← getitem (par g) "downlink";
  spec ← getcurve downlink "led_spectral_response";
  sd ← normalise (SpectralDistribution (curve_y spec) (curve_x spec));
  let dis_led := interpolate obs sd in
  mret (luminous_efficiency dis_led dis_pt).

Definition calculate_pt_current (g : globals) : M unit :=
  eff ← overlap g;
  let a := 1e-2 in
  let b := a in
  downlink ← getitem (par g) "downlink";
  d ← getfloat downlink "distance";
  angle_norm ← angle_norm a b d;
  downlink ← getitem (par g) "downlink";
  led_IV_typ ← getfloat downlink "led_IV_typ";
  let irr_act := led_IV_typ * angle_norm * 100 * 100 in
  let irr_ref := 1000 in
  downlink ← getitem (par g) "downlink";
  als_IPH3 ← getfloat downlink "als_IPH3";
  let I := als_IPH3 * eff * irr_act / irr_ref in
  print (Line "Phototransistor current I = " (I * 1e3) (Fixed 3) " mA").

(** ** Phototransistor calculator, second definition

    The later cell rebinds the name [calculate_pt_current]; the model keeps
    both under different names.  [spec] is not assigned in this body, so it
    is the global.  The divisions here are on numpy scalars, which do not
    raise. *)

(** The local [power_per_area = 1.0 * const.sigma * T**4]. *)
Definition power_per_area (T : R) : R := 1.0 * sigma * T ^ 4.

(** The local [irr_mw_per_cm2]. *)
Definition irr_mw_per_cm2 : R :=
  let eff_lm_per_watt := luminous_efficacy sd_CIE_standard_illuminant_A in
  let irr_watt_per_m2 := 1000 / eff_lm_per_watt in
  irr_watt_per_m2 * 1e3 / 100 / 100.

Definition calculate_pt_current_2 (g : globals) : M unit :=
  p ← getitem (par g) "downlink";
  let a := 1e-2 in
  let b := a in
  d ← getfloat p "distance";
  angle_norm ← angle_norm a b d;
  let T := 2856 in
  let power_per_area := power_per_area T in
  let irr_mw_per_cm2 := irr_mw_per_cm2 in
  print (Line "Irradiance of CIE standard illuminant at 1000 lx is "
              irr_mw_per_cm2 (Fixed 3) " mW/cm^2");;
  let obs := photopic_observer in
  spec ← global_spec g;
  sd ← normalise (SpectralDistribution (curve_y spec) (curve_x spec));
  let dis := interpolate obs sd in
  let eff_pt := luminous_efficiency dis obs in
  downlink ← getitem (par g) "downlink";
  als_IPH3 ← getfloat downlink "als_IPH3";
  let normalized_response := als_IPH3 / (irr_mw_per_cm2 * eff_pt) in
  print (Line "Normalized phototransistor response is "
              (normalized_response * 1e3) (Fixed 3) " mA @ 1mW/cm^2").

(** The efficiency [eff_pt] the second definition computes from a curve
    bound to [spec]. *)
Definition eff_pt (spec : curve) : R :=
  luminous_efficiency
    (interpolate photopic_observer
       (normalised (SpectralDistribution (curve_y spec) (curve_x spec))))
    photopic_observer.

(** The normalized response as the body computes it. *)
Definition normalized_response (als_IPH3 : R) (spec : curve) : R :=
  als_IPH3 / (irr_mw_per_cm2 * eff_pt spec).

(** The normalized response in the spec's words: the reference irradiance
    is the black-body power per area [sigma * T^4] at [T = 2856]. *)
Definition normalized_response_blackbody (als_IPH3 : R) (spec : curve) : R :=
  als_IPH3 / (power_per_area 2856 * eff_pt spec).

(** The number shown on the [n]-th line the second definition prints:
    reference irradiance, normalized response in mA. *)
Definition pt2_line (n : nat) (g : globals) : option R :=
  shown <$> stdout (calculate_pt_current_2 g) !! n.

(** What the [.3f] field of the [n]-th line displays, in thousandths. *)
Definition pt2_text (n : nat) (g : globals) : option Z :=
  fixed_digits 3 <$> pt2_line n g.

End Phototransistor.

(** ** Closed form of the merge loop *)

(** The table once the outer loop has visited the sections of [done_]. *)
Definition merged (common : gmap string pyval)
    (done_ par : gmap string (gmap string pyval)) : gmap string (gmap string pyval) :=
  ((λ sec, sec ∪ common) <$> delete "common" done_) ∪ par.

(** ** Observing the photodiode calculator *)

(** [par[sk][k] = v] on the global table. *)
Definition assign (sk k : string) (v : pyval) (g : globals) : globals :=
  Globals (alter (<[k := v]>) sk (par g)) (spec g).

(** The number shown on the [n]-th line the photodiode calculator prints
    (counting from 0): irradiance, current in µA, SNR in dB. *)
Definition pd_line (n : nat) (g : globals) : option R :=
  shown <$> stdout (calculate_pd_current g) !! n.

(** The ['uplink'] section holds the five numbers the calculator reads. *)
Definition pd_parameters (g : globals) (d Ie I eff Ir0 : R) : Prop :=
  ∃ p : gmap string pyval,
    par g !! "uplink" = Some p ∧
    p !! "distance" = Some (VFloat d) ∧
    p !! "led_Ie" = Some (VFloat Ie) ∧
    p !! "led_current" = Some (VFloat I) ∧
    p !! "pd_eff" = Some (VFloat eff) ∧
    p !! "pd_Ir0" = Some (VFloat Ir0).

(** The irradiance and the photocurrent as the body computes them. *)
Definition irradiance_pd (d Ie I : R) : R :=
  Ie * I / 20e-3 *
  (4 * atan (1e-2 * 1e-2 / (2 * d * sqrt (4 * (d ^ 2) + 1e-2 ^ 2 + 1e-2 ^ 2)))).

Definition current_pd (d Ie I eff : R) : R := eff * irradiance_pd d Ie I.


(** The global state once the cell that binds [par] has run in a fresh
    kernel, with the merge loop in closed form. *)
Definition after_cell_par : globals :=
  Globals (merged (<["distance" := VFloat 10e-3]> ∅) par_literal par_literal) None.

(** ** Instances of the library interface *)

(** The same library with another value for [scipy.constants.sigma]. *)
Definition with_sigma (s : R) (C : Colour) : Colour :=
  {| photopic_observer := @photopic_observer C;
     sd_CIE_standard_illuminant_A := @sd_CIE_standard_illuminant_A C;
     interpolate := @interpolate C;
     luminous_efficiency := @luminous_efficiency C;
     luminous_efficacy := @luminous_efficacy C;
     sigma := s |}.

Fixpoint dot (xs ys : list R) : R :=
  match xs, ys with
  | x :: xs', y :: ys' => x * y + dot xs' ys'
  | _, _ => 0
  end.

Definition total (xs : list R) : R := foldr Rplus 0 xs.

(** A three-sample stand-in for the library, to instantiate the statements
    below: every curve is taken as already sampled at 510, 555 and 610 nm
    (so interpolation changes nothing), integrals are sums, the observer
    has the CIE 1924 values at those wavelengths, and [sigma] is the CODATA
    value. *)
Definition three_sample_colour : Colour :=
  {| photopic_observer := Curve [510; 555; 610] [0.503; 1; 0.503];
     sd_CIE_standard_illuminant_A := Curve [510; 555; 610] [66.06; 101.04; 136.35];
     interpolate := λ _ sd, sd;
     luminous_efficiency := λ sd lef,
       dot (curve_y sd) (curve_y lef) / total (curve_y sd);
     luminous_efficacy := λ sd,
       683 * (dot (curve_y sd) [0.503; 1; 0.503] / total (curve_y sd));
     sigma := 5.670374419e-8 |}.

(** Two curves on that grid: a response peaked at 555 nm, and a flat one. *)
Definition peaked_response : curve := Curve [510; 555; 610] [0; 1; 0].
Definition flat_response : curve := Curve [510; 555; 610] [1; 1; 1].

(** * The photodiode calculator in binary64

    The definitions above read every Python [float] as an exact real.  This
    module models the same lines on IEEE binary64 ([PrimFloat]), with the
    interpreter's own checks: [x / y] raises on a zero divisor, [x ** 2]
    raises [OverflowError] when the C library's [pow] overflows,
    [math.sqrt], [math.atan] and [math.log10] raise [ValueError] through
    the wrapper of the [math] module.  The three C library functions the
    interpreter calls enter as an interface. *)

Module Binary64.

Import Floats.
Local Open Scope float_scope.

(** [pow], [atan] and [log10] of the C library. *)
Record libm := Libm {
  libm_pow : float → float → float;
  libm_atan : float → float;
  libm_log10 : float → float
}.

(** One call of [print], with the binary64 value of the field. *)
Record line := Line {
  before : string;
  shown : float;
  fmt : numfmt;
  after : string
}.

Definition M (A : Type) : Type := list line → list line * (exn + A).

Definition ret {A} (a : A) : M A := λ out, (out, inr a).
Definition raise {A} (e : exn) : M A := λ out, (out, inl e).
Definition bind {A B} (m : M A) (k : A → M B) : M B :=
  λ out, match m out with
         | (out', inr a) => k a out'
         | (out', inl e) => (out', inl e)
         end.
Definition print (l : line) : M unit := λ out, (out ++ [l], inr tt).
Definition run {A} (m : M A) : list line * (exn + A) := m [].

#[export] Instance M_ret : MRet M := @ret.
#[export] Instance M_bind : MBind M := λ A B k m, bind m k.

Definition is_finite (x : float) : bool := abs x <? infinity.

(** [x / y]: [float_div] raises on a divisor equal to zero, of either
    sign. *)
Definition truediv (x y : float) : M float :=
  if y =? 0 then raise ZeroDivisionError else ret (x / y).

(** [x ** 2]: the special cases of [float_pow], then the C library's
    [pow], whose overflow to an infinity raises [OverflowError]. *)
Definition pow2 (L : libm) (x : float) : M float :=
  if is_nan x then ret x
  else if is_infinity x then ret (abs x)
  else if x =? 0 then ret 0
  else if abs x =? 1 then ret 1
  else let r := libm_pow L (abs x) 2 in
       if is_infinity r then raise OverflowError else ret r.

(** The wrapper [math_1] of the [math] module for a function that cannot
    overflow: a NaN from a number, or an infinity from a finite number,
    is a [ValueError]. *)
Definition math_1 (func : float → float) (x : float) : M float :=
  let r := func x in
  if is_nan r && negb (is_nan x) then raise ValueError
  else if is_infinity r && is_finite x then raise ValueError
  else ret r.

(** [math.sqrt(x)]; the square root itself is IEEE's. *)
Definition math_sqrt (x : float) : M float := math_1 PrimFloat.sqrt x.

(** [math.atan(x)]. *)
Definition math_atan (L : libm) (x : float) : M float := math_1 (libm_atan L) x.

(** [m_log10] of the [math] module: the C library is asked for positive
    finite arguments only. *)
Definition m_log10 (L : libm) (x : float) : float :=
  if is_finite x then
    if 0 <? x then libm_log10 L x
    else if x =? 0 then neg_infinity else nan
  else if is_nan x then x
  else if 0 <? x then x else nan.

(** [math.log10(x)]. *)
Definition math_log10 (L : libm) (x : float) : M float := math_1 (m_log10 L) x.

(** [d[k]] on a dict of floats. *)
Definition getitem (d : gmap string float) (k : string) : M float :=
  match d !! k with
  | Some v => ret v
  | None => raise (KeyError k)
  end.

(** [4*math.atan(a*b / (2*d*math.sqrt(4*(d**2) + a**2 + b**2)))], operand
    by operand in Python's order. *)
Definition angle_norm (L : libm) (a b d : float) : M float :=
  let ab := a * b in
  let d2 := 2 * d in
  dd ← pow2 L d;
  aa ← pow2 L a;
  bb ← pow2 L b;
  r ← math_sqrt (4 * dd + aa + bb);
  q ← truediv ab (d2 * r);
  t ← math_atan L q;
  mret (4 * t).

(** The closed form [4*atan(s^2/(2*d*sqrt(4*d^2+2*s^2)))] of the spec,
    written as the Python expression
    [4*math.atan(s**2 / (2*d*math.sqrt(4*d**2 + 2*s**2)))]. *)
Definition pyramid_solid_angle (L : libm) (s d : float) : M float :=
  ss ← pow2 L s;
  let d2 := 2 * d in
  dd ← pow2 L d;
  ss' ← pow2 L s;
  r ← math_sqrt (4 * dd + 2 * ss');
  q ← truediv ss (d2 * r);
  t ← math_atan L q;
  mret (4 * t).

(** [calculate_pd_current] on the section [p = par['uplink']]. *)
Definition calculate_pd_current (L : libm) (p : gmap string float) : M unit :=
  let a := 0x1.47ae147ae147bp-7 (* 1e-2 *) in
  let b := a in
  d ← getitem p "distance";
  angle_norm ← angle_norm L a b d;
  led_Ie ← getitem p "led_Ie";
  led_current ← getitem p "led_current";
  let irradiance_pd :=
    led_Ie * led_current / 0x1.47ae147ae147bp-6 (* 20e-3 *) * angle_norm in
  pd_eff ← getitem p "pd_eff";
  let current_pd := pd_eff * irradiance_pd in
  print (Line "Photodiode irradiance: " irradiance_pd (Fixed 3) " mW/cm^2");;
  print (Line "Photodiode current: "
              (current_pd * 0x1.e848p+19 (* 1e6 *)) (Fixed 3) " µA");;
  pd_Ir0 ← getitem p "pd_Ir0";
  q ← truediv current_pd pd_Ir0;
  l ← math_log10 L q;
  print (Line "Photodiode SNR: " (20 * l) Repr " dB").

(** The five numbers the calculator reads from the section. *)
Definition pd_parameters (p : gmap string float) (d Ie I eff Ir0 : float) : Prop :=
  p !! "distance" = Some d ∧ p !! "led_Ie" = Some Ie ∧
  p !! "led_current" = Some I ∧ p !! "pd_eff" = Some eff ∧
  p !! "pd_Ir0" = Some Ir0.

(** The exceptions of the arithmetic: what can still be raised once every
    key is present. *)
Definition arithmetic (e : exn) : Prop :=
  e = ZeroDivisionError ∨ e = OverflowError ∨ e = ValueError.

(** The ['uplink'] section of the notebook after the merge loop. *)
Definition uplink : gmap string float :=
  <["led_Ie" := 0x1.28f5c28f5c28fp-3 (* 145.0e-3 *) / 100 * 20]>
  (<["led_theta" := 20]>
  (<["led_current" := 0x1.47ae147ae147bp-6 (* 20e-3 *)]>
  (<["pd_eff" := 0x1.0c6f7a0b5ed8dp-15 (* 32e-6 *)]>
  (<["pd_Ir0" := 0x1.01b2b29a4692bp-25 (* 30e-9 *)]>
  (<["distance" := 0x1.47ae147ae147bp-7 (* 10e-3 *)]> ∅))))).

(** The numbers on the lines a run printed, in order. *)
Definition printed {A} (r : list line * (exn + A)) : list float :=
  map shown (fst r).

(** A table of recorded values; an argument that was not recorded gives
    NaN. *)
Definition recorded (entries : list (float * float)) (x : float) : float :=
  match List.find (λ e, fst e =? x) entries with
  | Some e => snd e
  | None => nan
  end.

(** The C library as far as the statements below need it: [pow(x, 2)] as
    the correctly rounded square, and the values glibc's [atan] and
    [log10] return at the arguments that occur. *)
Definition recorded_libm : libm :=
  {| libm_pow := λ x y, if y =? 2 then x * x else nan;
     libm_atan := recorded
       [ (0, 0);
         (* 0.20412414523193148 -> 0.20135792079033077 *)
         (0x1.a20bd700c2c3dp-3, 0x1.9c618aa4ae23cp-3);
         (* 0.027036903521793762 -> 0.02703031847027843 *)
         (0x1.baf8fe1a5149cp-6, 0x1.badd5f7523cf1p-6);
         (* 0.002493773340269082 -> 0.0024937681707748135 *)
         (0x1.46dd25e153ca1p-9, 0x1.46dcf9797d3b5p-9);
         (* 0.05892556509887896 -> 0.05885750594708123 *)
         (0x1.e2b7dddfefa66p-5, 0x1.e22922e556bf9p-5);
         (* 0.5773502691896258 -> 0.5235987755982989 *)
         (0x1.279a74590331dp-1, 0x1.0c152382d7366p-1);
         (* 1.0849075915068658 -> 0.8261005419270769 *)
         (0x1.15bc8100b440fp+0, 0x1.a6f6a67591c09p-1);
         (* 1.0849075915068656 -> 0.8261005419270768 *)
         (0x1.15bc8100b440ep+0, 0x1.a6f6a67591c08p-1);
         (* 3.500700210070024 -> 1.2925495040600994 *)
         (0x1.c016f1c9acf05p+1, 0x1.4ae48638662e7p+0);
         (* 3.5007002100700233 -> 1.2925495040600994 *)
         (0x1.c016f1c9acf03p+1, 0x1.4ae48638662e7p+0) ];
     libm_log10 := recorded
       [ (* 24.914686732456925 -> 1.3964554308921595 *)
         (0x1.8ea28e8e1fcd3p+4, 0x1.657e1a6600dfbp+0);
         (* 24.91468673245693 -> 1.3964554308921597 *)
         (0x1.8ea28e8e1fcd4p+4, 0x1.657e1a6600dfcp+0);
         (* 174.40280712719849 -> 2.2415534709064167 *)
         (0x1.5cce3cbc5bd39p+7, 0x1.1eeb3960e3a0ep+1) ] |}.

End Binary64.

(** * Properties *)

(** ** Running the primitives *)

(** Unfolding the monad operations, for goals that are equal up to the
    monad laws. *)
Ltac unfold_monad :=
  unfold mbind, M_bind, bind, mret, M_ret, ret; cbv beta iota.

Lemma truediv_nonzero (x y : R) : y ≠ 0 → truediv x y = mret (x / y).
Proof. intros Hy. unfold truediv. destruct (Req_dec_T y 0); [lra | reflexivity]. Qed.

Lemma truediv_zero (x y : R) : y = 0 → truediv x y = raise ZeroDivisionError.
Proof. intros Hy. unfold truediv. destruct (Req_dec_T y 0); [reflexivity | lra]. Qed.

Lemma math_sqrt_nonneg (x : R) : 0 <= x → math_sqrt x = mret (sqrt x).
Proof. intros Hx. unfold math_sqrt. destruct (Rlt_dec x 0); [lra | reflexivity]. Qed.



Lemma bind_mret {A B} (a : A) (k : A → M B) : (mret a ≫= k) = k a.
Proof. reflexivity. Qed.

Lemma getfloat_some (p : gmap string pyval) (k : string) (r : R) :
  p !! k = Some (VFloat r) → getfloat p k = mret r.
Proof. intros Hk. unfold getfloat, getitem. rewrite Hk. reflexivity. Qed.

Lemma getitem_some {V} (p : gmap string V) (k : string) (v : V) :
  p !! k = Some v → getitem p k = mret v.
Proof. intros Hk. unfold getitem. rewrite Hk. reflexivity. Qed.

(** ** The radicand and the divisor of the solid-angle expression *)

Lemma radicand_pos (a b d : R) : d ≠ 0 → 0 < 4 * (d ^ 2) + a ^ 2 + b ^ 2.
Proof. intros Hd. nra. Qed.

Lemma divisor_nonzero (a b d : R) :
  d ≠ 0 → 2 * d * sqrt (4 * (d ^ 2) + a ^ 2 + b ^ 2) ≠ 0.
Proof.
  intros Hd. pose proof (sqrt_lt_R0 _ (radicand_pos a b d Hd)) as Hs.
  intros Hz. apply Rmult_integral in Hz. lra.
Qed.

(** With a non-zero distance the expression raises nothing. *)
Lemma angle_norm_nonzero (a b d : R) :
  d ≠ 0 →
  angle_norm a b d =
  mret (4 * atan (a * b / (2 * d * sqrt (4 * (d ^ 2) + a ^ 2 + b ^ 2)))).
Proof.
  intros Hd. unfold angle_norm.
  rewrite math_sqrt_nonneg by (pose proof (radicand_pos a b d Hd); lra).
  rewrite bind_mret, truediv_nonzero by (apply divisor_nonzero, Hd).
  reflexivity.
Qed.

(** At distance zero the division raises. *)
Lemma angle_norm_zero (a b : R) : angle_norm a b 0 = raise ZeroDivisionError.
Proof.
  unfold angle_norm. rewrite math_sqrt_nonneg by nra.
  rewrite bind_mret, truediv_zero by lra. reflexivity.
Qed.

(** ** Monotonicity of the pyramid formula over the reals *)








(** ** C6: the start-up merge *)

(** The inner loop is a left-biased union: the section wins. *)
Lemma merge_section_union (common sec : gmap string pyval) :
  merge_section common sec = sec ∪ common.
Proof.
  unfold merge_section.
  apply (map_fold_weak_ind (λ acc m, acc = sec ∪ m)).
  - by rewrite (right_id_L ∅ (∪)).
  - intros k v m acc Hk ->.
    rewrite lookup_union_l by done.
    destruct (sec !! k) as [w|] eqn:Hs.
    + apply map_eq. intros j. rewrite !lookup_union.
      destruct (decide (k = j)) as [<-|Hne].
      * by rewrite Hs, lookup_insert_eq, Hk.
      * by rewrite lookup_insert_ne.
    + by rewrite insert_union_r.
Qed.

Lemma merged_lookup_common (common : gmap string pyval)
    (m par : gmap string (gmap string pyval)) :
  merged common m par !! "common" = par !! "common".
Proof.
  unfold merged. rewrite lookup_union_r; [done|].
  by rewrite lookup_fmap, lookup_delete_eq.
Qed.

Lemma merged_lookup_fresh (common : gmap string pyval)
    (m par : gmap string (gmap string pyval)) (sk : string) :
  m !! sk = None → merged common m par !! sk = par !! sk.
Proof.
  intros Hsk. unfold merged. rewrite lookup_union_r; [done|].
  rewrite lookup_fmap.
  destruct (decide (sk = "common")) as [->|Hne].
  - by rewrite lookup_delete_eq.
  - by rewrite lookup_delete_ne, Hsk.
Qed.

Lemma merge_defaults_prefix (par : gmap string (gmap string pyval))
    (common : gmap string pyval) :
  par !! "common" = Some common →
  ∀ m : gmap string (gmap string pyval), m ⊆ par →
  map_fold (λ sk _ acc, match acc with
                        | inr p => merge_step sk p
                        | inl e => inl e
                        end) (inr par) m = inr (merged common m par).
Proof.
  intros Hc m.
  apply (map_fold_weak_ind
           (λ acc m, m ⊆ par → acc = inr (merged common m par))).
  - intros _. unfold merged. by rewrite delete_empty, fmap_empty, (left_id_L ∅ (∪)).
  - intros sk sec m' acc Hsk IH Hsub.
    assert (Hpar : par !! sk = Some sec).
    { eapply lookup_weaken; [|exact Hsub]. apply lookup_insert_eq. }
    rewrite IH by (etrans; [by apply insert_subseteq|done]).
    unfold merge_step. destruct (decide (sk = "common")) as [->|Hne].
    + f_equal. unfold merged. rewrite delete_insert_eq. done.
    + rewrite merged_lookup_common, Hc, merged_lookup_fresh, Hpar by done.
      f_equal. rewrite merge_section_union. unfold merged.
      rewrite delete_insert_ne, fmap_insert by done.
      by rewrite insert_union_l.
Qed.

Lemma merge_defaults_closed (par : gmap string (gmap string pyval))
    (common : gmap string pyval) :
  par !! "common" = Some common →
  merge_defaults par = inr (merged common par par).
Proof. intros Hc. by apply merge_defaults_prefix. Qed.


Lemma merged_lookup_section (common sec : gmap string pyval)
    (par : gmap string (gmap string pyval)) (sk : string) :
  sk ≠ "common" → par !! sk = Some sec →
  merged common par par !! sk = Some (sec ∪ common).
Proof.
  intros Hne Hsk. unfold merged.
  erewrite lookup_union_Some_l; [done|].
  by rewrite lookup_fmap, lookup_delete_ne, Hsk.
Qed.

(** *** Iteration order

    Python visits the keys of a dict in insertion order, [map_fold] in an
    order of its own.  Both loops end in the same table whatever the
    order. *)

Lemma merge_section_items (sec : gmap string pyval) (items : list (string * pyval)) :
  NoDup items.*1 →
  foldl (λ acc kv, match acc !! kv.1 with
                   | Some _ => acc
                   | None => <[kv.1 := kv.2]> acc
                   end) sec items
  = sec ∪ list_to_map items.
Proof.
  revert sec. induction items as [|[k v] items IH]; intros sec Hnd; simpl.
  - by rewrite (right_id_L ∅ (∪)).
  - apply NoDup_cons in Hnd as [Hk Hnd]. rewrite IH by done.
    destruct (sec !! k) as [w|] eqn:Hs.
    + apply map_eq. intros j. rewrite !lookup_union.
      destruct (decide (k = j)) as [<-|Hne].
      * rewrite Hs, lookup_insert_eq. by destruct (list_to_map items !! k).
      * by rewrite lookup_insert_ne.
    + by rewrite <- insert_union_l, insert_union_r.
Qed.

(** Whatever the order in which the keys of [par['common']] are visited,
    the inner loop ends in the same section. *)
Lemma merge_section_any_order (common sec : gmap string pyval)
    (items : list (string * pyval)) :
  items ≡ₚ map_to_list common →
  foldl (λ acc kv, match acc !! kv.1 with
                   | Some _ => acc
                   | None => <[kv.1 := kv.2]> acc
                   end) sec items
  = merge_section common sec.
Proof.
  intros Hperm.
  assert (Hnd : NoDup items.*1).
  { rewrite Hperm. apply NoDup_fst_map_to_list. }
  rewrite merge_section_items, merge_section_union by done.
  f_equal. rewrite <- (list_to_map_to_list common).
  apply list_to_map_proper; [done|]. by rewrite Hperm.
Qed.

Lemma merged_visited_lookup (common : gmap string pyval)
    (par : gmap string (gmap string pyval)) (ks : list string) (sk : string) :
  merged common (filter (λ kv, kv.1 ∈ ks) par) par !! sk
  = if decide (sk ∈ ks ∧ sk ≠ "common")
    then (λ sec, sec ∪ common) <$> par !! sk
    else par !! sk.
Proof.
  unfold merged. rewrite lookup_union, lookup_fmap.
  destruct (decide (sk = "common")) as [->|Hne].
  - rewrite lookup_delete_eq. simpl.
    rewrite decide_False by (intros [_ ?]; done).
    by rewrite (left_id_L None (∪)).
  - rewrite lookup_delete_ne by done.
    destruct (par !! sk) as [sec|] eqn:Hsk.
    + destruct (decide (sk ∈ ks)) as [Hin|Hnin].
      * rewrite decide_True by done.
        erewrite (proj2 (map_lookup_filter_Some _ _ _ _)); [done|]. by split.
      * rewrite decide_False by (intros [? _]; done).
        rewrite (proj2 (map_lookup_filter_None _ _ _)); [done|].
        right. intros ? ?. simplify_eq. done.
    + rewrite (proj2 (map_lookup_filter_None _ _ _)) by (by left).
      simpl. by destruct (decide _).
Qed.

Lemma elem_of_snoc (ks : list string) (k j : string) :
  j ∈ ks ++ [k] ↔ j ∈ ks ∨ j = k.
Proof. by rewrite elem_of_app, list_elem_of_singleton. Qed.

Lemma merge_defaults_items (par : gmap string (gmap string pyval))
    (common : gmap string pyval) (ks : list string) :
  par !! "common" = Some common →
  NoDup ks → (∀ sk, sk ∈ ks → is_Some (par !! sk)) →
  foldl (λ acc sk, match acc with
                   | inr p => merge_step sk p
                   | inl e => inl e
                   end) (inr par) ks
  = inr (merged common (filter (λ kv, kv.1 ∈ ks) par) par).
Proof.
  intros Hc. induction ks as [|k ks IH] using rev_ind; intros Hnd Hin.
  - simpl. f_equal. apply map_eq. intros sk.
    rewrite merged_visited_lookup. rewrite decide_False; [done|].
    intros [Hel _]. by apply elem_of_nil in Hel.
  - apply NoDup_app in Hnd as (Hnd & Hfresh & _).
    assert (Hk : k ∉ ks).
    { intros Hel. apply (Hfresh k Hel). by apply list_elem_of_singleton. }
    rewrite foldl_app, IH
      by (done || intros; apply Hin, elem_of_snoc; by left).
    simpl.
    destruct (Hin k) as [sec Hsec]; [apply elem_of_snoc; by right|].
    unfold merge_step. destruct (decide (k = "common")) as [->|Hne].
    + f_equal. apply map_eq. intros sk. rewrite !merged_visited_lookup.
      repeat case_decide; try done; exfalso;
        rewrite ?elem_of_snoc in *; intuition congruence.
    + rewrite !merged_visited_lookup, Hc.
      rewrite decide_False by (intros [_ ?]; done).
      rewrite decide_False by (intros [? _]; done).
      rewrite Hsec. f_equal. rewrite merge_section_union.
      apply map_eq. intros sk.
      rewrite lookup_insert, !merged_visited_lookup.
      repeat case_decide; subst; rewrite ?Hsec; try done; exfalso;
        rewrite ?elem_of_snoc in *; intuition congruence.
Qed.

(** Whatever the order in which the keys of [par] are visited, the outer
    loop ends in the same table. *)
Lemma merge_defaults_any_order (par : gmap string (gmap string pyval))
    (common : gmap string pyval) (ks : list string) :
  par !! "common" = Some common →
  ks ≡ₚ elements (dom par) →
  foldl (λ acc sk, match acc with
                   | inr p => merge_step sk p
                   | inl e => inl e
                   end) (inr par) ks
  = merge_defaults par.
Proof.
  intros Hc Hperm.
  rewrite (merge_defaults_items par common), (merge_defaults_closed par common).
  - do 2 f_equal. apply map_filter_id. intros sk sec Hsk. simpl.
    rewrite Hperm. apply elem_of_elements, elem_of_dom. eauto.
  - done.
  - done.
  - rewrite Hperm. apply NoDup_elements.
  - intros sk. rewrite Hperm. rewrite elem_of_elements. apply elem_of_dom.
Qed.

(** C6.  On a table with a ['common'] section the merge loop raises nothing
    and leaves a table with the same sections in which ['common'] is
    unchanged and every other section has every key of ['common'], keeps
    the value of each key it already had, and takes the value of
    ['common'] for each key it lacked; visiting the sections in any other
    order gives the same table. *)
Theorem merge_defaults_spec (par : gmap string (gmap string pyval))
    (common : gmap string pyval) :
  par !! "common" = Some common →
  ∃ par' : gmap string (gmap string pyval),
    merge_defaults par = inr par' ∧
    (∀ ks : list string,
        ks ≡ₚ elements (dom par) →
        foldl (λ acc sk, match acc with
                         | inr p => merge_step sk p
                         | inl e => inl e
                         end) (inr par) ks = inr par') ∧
    dom par' = dom par ∧
    par' !! "common" = Some common ∧
    ∀ (sk : string) (sec : gmap string pyval),
      sk ≠ "common" → par !! sk = Some sec →
      ∃ sec' : gmap string pyval,
        par' !! sk = Some sec' ∧
        (∀ k : string, is_Some (common !! k) → is_Some (sec' !! k)) ∧
        (∀ (k : string) (v : pyval), sec !! k = Some v → sec' !! k = Some v) ∧
        (∀ (k : string) (v : pyval),
            sec !! k = None → common !! k = Some v → sec' !! k = Some v).
Proof.
  intros Hc. exists (merged common par par).
  split; [by apply merge_defaults_closed|]. split; [|split; [|split]].
  - intros ks Hks. rewrite (merge_defaults_any_order par common) by done.
    by apply merge_defaults_closed.
  - apply set_eq. intros sk. rewrite !elem_of_dom. unfold merged.
    rewrite lookup_union, lookup_fmap.
    destruct (decide (sk = "common")) as [->|Hne].
    + by rewrite lookup_delete_eq, Hc.
    + rewrite lookup_delete_ne by done.
      destruct (par !! sk); simpl; split; eauto.
  - by rewrite merged_lookup_common.
  - intros sk sec Hne Hsk. exists (sec ∪ common).
    split; [by apply merged_lookup_section|]. split; [|split].
    + intros k [v Hv]. rewrite lookup_union.
      rewrite Hv. destruct (sec !! k); simpl; eauto.
    + intros k v Hv. by apply lookup_union_Some_l.
    + intros k v Hn Hv. by rewrite lookup_union_r.
Qed.

Lemma merge_defaults_spec_witness :
  ∃ par' : gmap string (gmap string pyval),
    merge_defaults par_literal = inr par' ∧
    (∀ ks : list string,
        ks ≡ₚ elements (dom par_literal) →
        foldl (λ acc sk, match acc with
                         | inr p => merge_step sk p
                         | inl e => inl e
                         end) (inr par_literal) ks = inr par') ∧
    dom par' = dom par_literal ∧
    par' !! "common" = Some (<["distance" := VFloat 10e-3]> ∅) ∧
    ∀ (sk : string) (sec : gmap string pyval),
      sk ≠ "common" → par_literal !! sk = Some sec →
      ∃ sec' : gmap string pyval,
        par' !! sk = Some sec' ∧
        (∀ k : string,
            is_Some ((<["distance" := VFloat 10e-3]> ∅ : gmap string pyval) !! k) →
            is_Some (sec' !! k)) ∧
        (∀ (k : string) (v : pyval), sec !! k = Some v → sec' !! k = Some v) ∧
        (∀ (k : string) (v : pyval),
            sec !! k = None →
            (<["distance" := VFloat 10e-3]> ∅ : gmap string pyval) !! k = Some v →
            sec' !! k = Some v).
Proof. apply (merge_defaults_spec par_literal). reflexivity. Defined.

(** ** Running the photodiode calculator, exact reading *)




(** ** The photodiode calculator on binary64: how a run can end

    Each primitive either returns, leaving the output as it was, or raises
    its one exception. *)

Module Binary64Runs.

Import Floats Binary64.
Local Open Scope float_scope.

Lemma truediv_cases (x y : float) (out : list line) :
  ((y =? 0) = true ∧ truediv x y out = (out, inl ZeroDivisionError)) ∨
  ((y =? 0) = false ∧ truediv x y out = (out, inr (x / y))).
Proof. unfold truediv. destruct (y =? 0); [left | right]; done. Qed.

Lemma pow2_cases (L : libm) (x : float) (out : list line) :
  pow2 L x out = (out, inl OverflowError) ∨ ∃ v, pow2 L x out = (out, inr v).
Proof.
  unfold pow2.
  repeat match goal with
         | |- context [if ?c then _ else _] => destruct c
         end; first [left; reflexivity | right; eexists; reflexivity].
Qed.

Lemma math_1_cases (func : float → float) (x : float) (out : list line) :
  math_1 func x out = (out, inl ValueError) ∨
  math_1 func x out = (out, inr (func x)).
Proof.
  unfold math_1. cbv zeta.
  repeat match goal with
         | |- context [if ?c then _ else _] => destruct c
         end; first [left; reflexivity | right; reflexivity].
Qed.

Lemma angle_norm_cases (L : libm) (a b d : float) (out : list line) :
  (∃ e, arithmetic e ∧ angle_norm L a b d out = (out, inl e)) ∨
  (∃ w, angle_norm L a b d out = (out, inr w)).
Proof.
  unfold angle_norm, arithmetic. cbv zeta. unfold mbind, M_bind, bind, mret, M_ret.
  destruct (pow2_cases L d out) as [->|[dd ->]]; [left; eauto|].
  destruct (pow2_cases L a out) as [->|[aa ->]]; [left; eauto|].
  destruct (pow2_cases L b out) as [->|[bb ->]]; [left; eauto|].
  unfold math_sqrt.
  destruct (math_1_cases PrimFloat.sqrt (4 * dd + aa + bb) out) as [->| ->];
    [left; eauto|].
  destruct (truediv_cases (a * b) (2 * d * PrimFloat.sqrt (4 * dd + aa + bb)) out)
    as [[_ ->]|[_ ->]]; [left; eauto|].
  unfold math_atan.
  match goal with
  | |- context [math_1 ?f ?x out] =>
      destruct (math_1_cases f x out) as [->| ->]
  end; [left; eauto | right; eexists; reflexivity].
Qed.

Section Run.
Context (L : libm) (p : gmap string float) (d Ie I eff Ir0 : float).
Hypothesis Hp : pd_parameters p d Ie I eff Ir0.

(** With the five keys present a run ends in one of four ways: in the
    solid angle, before anything is printed; at the division by the dark
    current; at the logarithm; or after the third line. *)
Lemma calculate_pd_current_cases :
  (∃ e, arithmetic e ∧
      run (angle_norm L 0x1.47ae147ae147bp-7 0x1.47ae147ae147bp-7 d) = ([], inl e) ∧
      run (calculate_pd_current L p) = ([], inl e)) ∨
  (∃ w,
      run (angle_norm L 0x1.47ae147ae147bp-7 0x1.47ae147ae147bp-7 d) = ([], inr w) ∧
      let irradiance_pd := Ie * I / 0x1.47ae147ae147bp-6 * w in
      let current_pd := eff * irradiance_pd in
      let l0 := Line "Photodiode irradiance: " irradiance_pd (Fixed 3) " mW/cm^2" in
      let l1 := Line "Photodiode current: " (current_pd * 0x1.e848p+19) (Fixed 3) " µA" in
      let l2 := Line "Photodiode SNR: " (20 * m_log10 L (current_pd / Ir0)) Repr " dB" in
      ((Ir0 =? 0) = true ∧
       run (calculate_pd_current L p) = ([l0; l1], inl ZeroDivisionError)) ∨
      ((Ir0 =? 0) = false ∧
       run (calculate_pd_current L p) = ([l0; l1], inl ValueError)) ∨
      ((Ir0 =? 0) = false ∧
       run (calculate_pd_current L p) = ([l0; l1; l2], inr ()))).
Proof.
  destruct Hp as (Hd & HIe & HI & Heff & HIr0).
  unfold run, calculate_pd_current. cbv zeta.
  unfold getitem. rewrite Hd, HIe, HI, Heff, HIr0.
  unfold mbind, M_bind, bind, mret, M_ret, ret, print.
  destruct (angle_norm_cases L 0x1.47ae147ae147bp-7 0x1.47ae147ae147bp-7 d [])
    as [(e & He & ->)|[w ->]]; [left; exists e; done|].
  right. exists w. split; [reflexivity|]. cbn [app].
  match goal with
  | |- context [truediv ?x ?y ?out] =>
      destruct (truediv_cases x y out) as [[Hz ->]|[Hz ->]]
  end; [left; done|].
  right. unfold math_log10.
  match goal with
  | |- context [math_1 ?f ?x ?out] =>
      destruct (math_1_cases f x out) as [->| ->]
  end; [left; done | right; done].
Qed.


End Run.


End Binary64Runs.

(** ** The notebook's ['uplink'] section *)


(** ** The photodiode calculator on binary64: the claims *)

Section Photodiode.
Import Floats.

(** C1, amended.  For every side [s] and distance [d], the expression the
    three calculators evaluate, taken at [a = b = s], and the closed form
    [4*atan(s**2 / (2*d*sqrt(4*d**2 + 2*s**2)))] end alike on binary64,
    in the same number or the same exception, provided [s**2] is [s*s]
    and the two radicands [4*(d**2) + s**2 + s**2] and [4*d**2 + 2*s**2]
    round to the same number. *)
Theorem angle_norm_pyramid (L : Binary64.libm) (s d : float) :
  (∀ ss dd : float,
      Binary64.run (Binary64.pow2 L s) = ([], inr ss) →
      Binary64.run (Binary64.pow2 L d) = ([], inr dd) →
      ss = (s * s)%float ∧
      (4 * dd + ss + ss)%float = (4 * dd + 2 * ss)%float) →
  Binary64.run (Binary64.angle_norm L s s d)
  = Binary64.run (Binary64.pyramid_solid_angle L s d).
Proof.
  intros H.
  unfold Binary64.run, Binary64.angle_norm, Binary64.pyramid_solid_angle in *.
  cbv zeta. unfold mbind, Binary64.M_bind, Binary64.bind.
  destruct (Binary64Runs.pow2_cases L s []) as [Hs|[ss Hs]];
    destruct (Binary64Runs.pow2_cases L d []) as [Hd|[dd Hd]];
    repeat first [rewrite Hs | rewrite Hd | progress cbv beta iota];
    try reflexivity.
  destruct (H ss dd Hs Hd) as [-> Hrad]. rewrite Hrad. reflexivity.
Qed.

Lemma angle_norm_pyramid_witness :
  Binary64.run (Binary64.angle_norm Binary64.recorded_libm
                  0x1.47ae147ae147bp-7 0x1.47ae147ae147bp-7 0x1.47ae147ae147bp-7)
  = Binary64.run (Binary64.pyramid_solid_angle Binary64.recorded_libm
                  0x1.47ae147ae147bp-7 0x1.47ae147ae147bp-7).
Proof.
  apply (angle_norm_pyramid Binary64.recorded_libm
           0x1.47ae147ae147bp-7 0x1.47ae147ae147bp-7).
  intros ss dd Hs Hd. vm_compute in Hs, Hd.
  injection Hs as <-. injection Hd as <-.
  split; vm_compute; reflexivity.
Defined.





(** C4, amended.  On binary64, a run that returns has printed three
    numbers: the irradiance, the photocurrent [current_pd * 1e6], and
    [20 * math.log10(current_pd / pd_Ir0)] with [current_pd] the product
    [pd_eff * irradiance_pd]; the quotient and the product are rounded,
    and [pd_Ir0] is not zero. *)
Theorem snr_line_spec (L : Binary64.libm) (p : gmap string float)
    (d Ie I eff Ir0 : float) (out : list Binary64.line) :
  Binary64.pd_parameters p d Ie I eff Ir0 →
  Binary64.run (Binary64.calculate_pd_current L p) = (out, inr ()) →
  (Ir0 =? 0)%float = false ∧
  ∃ irradiance_pd : float,
    let current_pd := (eff * irradiance_pd)%float in
    Binary64.shown <$> out
    = [irradiance_pd; (current_pd * 0x1.e848p+19)%float;
       (20 * Binary64.m_log10 L (current_pd / Ir0))%float].
Proof.
  intros Hp Hrun.
  destruct (Binary64Runs.calculate_pd_current_cases L p _ _ _ _ _ Hp)
    as [(e & _ & _ & He)|(w & _ & Hcases)].
  - rewrite Hrun in He. discriminate He.
  - cbv zeta in Hcases.
    destruct Hcases as [[_ He]|[[_ He]|[Hz He]]];
      rewrite Hrun in He; try discriminate He.
    injection He as ->. split; [exact Hz|].
    eexists. cbv zeta. cbn [fmap list_fmap Binary64.shown]. reflexivity.
Qed.

Lemma snr_line_spec_witness :
  (0x1.01b2b29a4692bp-25 =? 0)%float = false ∧
  ∃ irradiance_pd : float,
    let current_pd := (0x1.0c6f7a0b5ed8dp-15 * irradiance_pd)%float in
    [0x1.7eb088da5bf83p-6; 0x1.7eb088da5bf83p-1; 0x1.bedda0ff8117ap+4]%float
    = [irradiance_pd; (current_pd * 0x1.e848p+19)%float;
       (20 * Binary64.m_log10 Binary64.recorded_libm
               (current_pd / 0x1.01b2b29a4692bp-25))%float].
Proof.
  apply (snr_line_spec Binary64.recorded_libm Binary64.uplink
           0x1.47ae147ae147bp-7 (0x1.28f5c28f5c28fp-3 / 100 * 20)
           0x1.47ae147ae147bp-6 0x1.0c6f7a0b5ed8dp-15 0x1.01b2b29a4692bp-25
           [Binary64.Line "Photodiode irradiance: " 0x1.7eb088da5bf83p-6
              (Fixed 3) " mW/cm^2";
            Binary64.Line "Photodiode current: " 0x1.7eb088da5bf83p-1
              (Fixed 3) " µA";
            Binary64.Line "Photodiode SNR: " 0x1.bedda0ff8117ap+4 Repr " dB"]).
  - repeat split.
  - vm_compute. reflexivity.
Defined.



End Photodiode.

(** ** C9: the notebook's printed irradiance *)







(** A real within half a unit of the integer [n] rounds to [n]. *)
Lemma round_half_even_near (x : R) (n : Z) :
  IZR n - 1 / 2 < x → x < IZR n + 1 / 2 → round_half_even x = n.
Proof.
  intros Hlo Hhi. unfold round_half_even, frac_part.
  destruct (Rlt_dec x (IZR n)) as [Hlt|Hge].
  - assert (Hi : Int_part x = (n - 1)%Z).
    { symmetry. apply Int_part_spec. rewrite minus_IZR. lra. }
    rewrite Hi, minus_IZR.
    destruct (Rlt_dec (x - (IZR n - 1)) (1 / 2)); [lra|].
    destruct (Rlt_dec (1 / 2) (x - (IZR n - 1))); [lia | lra].
  - assert (Hi : Int_part x = n).
    { symmetry. apply Int_part_spec. lra. }
    rewrite Hi.
    destruct (Rlt_dec (x - IZR n) (1 / 2)); [done | lra].
Qed.





(** ** C8: the overlap integral ignores the amplitude of either curve *)

Lemma maximum_scale (k v : R) (vs : list R) :
  0 <= k → maximum (k * v) (map (Rmult k) vs) = k * maximum v vs.
Proof.
  intros Hk. revert v. induction vs as [|w ws IH]; intros v; simpl.
  - reflexivity.
  - rewrite IH. by apply RmaxRmult.
Qed.

Lemma normalised_scale (k : R) (c : curve) :
  0 < k → normalised (scale_curve k c) = normalised c.
Proof.
  intros Hk. destruct c as [xs [|v vs]]; [reflexivity|].
  unfold normalised, scale_curve. cbn [curve_y curve_x map].
  rewrite maximum_scale by lra. f_equal.
  set (m := maximum v vs).
  assert (Hy : ∀ y, k * y * (1 / (k * m) * 1) = y * (1 / m * 1)).
  { intros y. destruct (Req_dec_T m 0) as [->|Hm].
    - rewrite Rmult_0_r. unfold Rdiv. rewrite Rinv_0. ring.
    - field. lra. }
  f_equal; [apply Hy|]. rewrite map_map. apply map_ext. intros y. apply Hy.
Qed.

Lemma normalise_scale (k : R) (c : curve) :
  0 < k → normalise (scale_curve k c) = normalise c.
Proof.
  intros Hk. unfold normalise. rewrite normalised_scale by done.
  by destruct c as [xs [|v vs]].
Qed.

Lemma SpectralDistribution_eta (c : curve) :
  SpectralDistribution (curve_y c) (curve_x c) = c.
Proof. by destruct c. Qed.

Lemma getitem_assign (g : globals) (sk k : string) (v : pyval)
    (p : gmap string pyval) :
  par g !! sk = Some p →
  getitem (par (assign sk k v g)) sk = mret (<[k := v]> p).
Proof. intros Hp. apply getitem_some. simpl. by rewrite lookup_alter_eq, Hp. Qed.

Section Overlap.
Context `{Colour}.

Lemma overlap_unfold (g : globals) (p : gmap string pyval) (c_pt c_led : curve) :
  par g !! "downlink" = Some p →
  p !! "als_spectral_response" = Some (VCurve c_pt) →
  p !! "led_spectral_response" = Some (VCurve c_led) →
  overlap g =
  (sd ← normalise c_pt;
   sd0 ← normalise c_led;
   mret (luminous_efficiency (interpolate photopic_observer sd0)
                             (interpolate photopic_observer sd))).
Proof.
  intros Hp Hpt Hled. unfold overlap. cbv zeta.
  rewrite (getitem_some _ _ _ Hp). unfold getcurve, getitem. unfold_monad.
  rewrite Hpt, Hled. unfold as_curve. unfold_monad.
  rewrite !SpectralDistribution_eta. reflexivity.
Qed.

(** C8.  For every [k > 0], multiplying all y-values of the LED curve, or
    of the phototransistor curve, by [k] changes neither the overlap [eff]
    nor anything the first [calculate_pt_current] prints or raises. *)
Theorem overlap_amplitude_invariant (g : globals) (p : gmap string pyval)
    (c_pt c_led : curve) (k : R) :
  par g !! "downlink" = Some p →
  p !! "als_spectral_response" = Some (VCurve c_pt) →
  p !! "led_spectral_response" = Some (VCurve c_led) →
  0 < k →
  let g_led :=
    assign "downlink" "led_spectral_response" (VCurve (scale_curve k c_led)) g in
  let g_pt :=
    assign "downlink" "als_spectral_response" (VCurve (scale_curve k c_pt)) g in
  overlap g_led = overlap g ∧
  overlap g_pt = overlap g ∧
  calculate_pt_current g_led = calculate_pt_current g ∧
  calculate_pt_current g_pt = calculate_pt_current g.
Proof.
  intros Hp Hpt Hled Hk g_led g_pt.
  assert (Hp_led : par g_led !! "downlink"
            = Some (<["led_spectral_response" := VCurve (scale_curve k c_led)]> p))
    by (simpl; by rewrite lookup_alter_eq, Hp).
  assert (Hp_pt : par g_pt !! "downlink"
            = Some (<["als_spectral_response" := VCurve (scale_curve k c_pt)]> p))
    by (simpl; by rewrite lookup_alter_eq, Hp).
  assert (Hov_led : overlap g_led = overlap g).
  { rewrite (overlap_unfold g p c_pt c_led) by done.
    rewrite (overlap_unfold g_led _ c_pt (scale_curve k c_led) Hp_led)
      by (by rewrite ?lookup_insert_eq, ?lookup_insert_ne).
    by rewrite normalise_scale. }
  assert (Hov_pt : overlap g_pt = overlap g).
  { rewrite (overlap_unfold g p c_pt c_led) by done.
    rewrite (overlap_unfold g_pt _ (scale_curve k c_pt) c_led Hp_pt)
      by (by rewrite ?lookup_insert_eq, ?lookup_insert_ne).
    by rewrite normalise_scale. }
  split; [done|]. split; [done|].
  unfold calculate_pt_current. rewrite Hov_led, Hov_pt.
  rewrite (getitem_some _ _ _ Hp_led), (getitem_some _ _ _ Hp_pt),
    (getitem_some _ _ _ Hp).
  unfold_monad. unfold getfloat, getitem.
  rewrite !lookup_insert_ne by done.
  split; reflexivity.
Qed.

End Overlap.

Lemma overlap_amplitude_invariant_witness :
  let C := three_sample_colour in
  let g_led :=
    assign "downlink" "led_spectral_response"
      (VCurve (scale_curve 2 led_spectral_response)) after_cell_par in
  let g_pt :=
    assign "downlink" "als_spectral_response"
      (VCurve (scale_curve 2 als_spectral_response)) after_cell_par in
  @overlap C g_led = @overlap C after_cell_par ∧
  @overlap C g_pt = @overlap C after_cell_par ∧
  @calculate_pt_current C g_led = @calculate_pt_current C after_cell_par ∧
  @calculate_pt_current C g_pt = @calculate_pt_current C after_cell_par.
Proof.
  intros C.
  apply (@overlap_amplitude_invariant C after_cell_par
           (<["als_IPH3" := VFloat 520e-6]>
              (<["led_IV_typ" := VFloat 60e-3]>
              (<["als_spectral_response" := VCurve als_spectral_response]>
              (<["led_spectral_response" := VCurve led_spectral_response]> ∅)))
            ∪ <["distance" := VFloat 10e-3]> ∅)
           als_spectral_response led_spectral_response 2).
  - reflexivity.
  - reflexivity.
  - reflexivity.
  - lra.
Defined.


(** ** Running the second phototransistor calculator *)

Section SecondDefinition.
Context `{Colour}.

Lemma calculate_pt_current_2_unfold (g : globals) (p : gmap string pyval)
    (d als_IPH3 : R) (c : curve) :
  par g !! "downlink" = Some p →
  p !! "distance" = Some (VFloat d) → d ≠ 0 →
  p !! "als_IPH3" = Some (VFloat als_IPH3) →
  spec g = Some c → curve_y c ≠ [] →
  calculate_pt_current_2 g =
  (print (Line "Irradiance of CIE standard illuminant at 1000 lx is "
               irr_mw_per_cm2 (Fixed 3) " mW/cm^2");;
   print (Line "Normalized phototransistor response is "
               (normalized_response als_IPH3 c * 1e3) (Fixed 3)
               " mA @ 1mW/cm^2")).
Proof.
  intros Hp Hd Hnz HI Hc Hy. unfold calculate_pt_current_2. cbv zeta.
  rewrite (getitem_some _ _ _ Hp), bind_mret. cbv beta.
  rewrite (getfloat_some _ _ _ Hd), bind_mret. cbv beta.
  rewrite (angle_norm_nonzero _ _ _ Hnz), bind_mret. cbv beta.
  unfold global_spec, normalise. rewrite Hc.
  unfold SpectralDistribution at 1. cbn [curve_y].
  destruct (curve_y c) as [|y ys] eqn:Hys; [done|].
  unfold_monad. unfold getfloat, getitem. unfold_monad. rewrite HI.
  unfold normalized_response, eff_pt, normalised, SpectralDistribution.
  cbn [curve_y curve_x]. rewrite Hys. reflexivity.
Qed.

(** With [spec] unbound the body raises [NameError] after its first line. *)
Lemma calculate_pt_current_2_unbound (g : globals) (p : gmap string pyval) (d : R) :
  par g !! "downlink" = Some p →
  p !! "distance" = Some (VFloat d) → d ≠ 0 →
  spec g = None →
  run (calculate_pt_current_2 g) =
  ([Line "Irradiance of CIE standard illuminant at 1000 lx is "
         irr_mw_per_cm2 (Fixed 3) " mW/cm^2"],
   inl (NameError "spec")).
Proof.
  intros Hp Hd Hnz Hc. unfold calculate_pt_current_2. cbv zeta.
  rewrite (getitem_some _ _ _ Hp), bind_mret. cbv beta.
  rewrite (getfloat_some _ _ _ Hd), bind_mret. cbv beta.
  rewrite (angle_norm_nonzero _ _ _ Hnz), bind_mret. cbv beta.
  unfold global_spec. rewrite Hc. reflexivity.
Qed.

(** The body never reads [par['downlink']['als_spectral_response']]. *)
Lemma calculate_pt_current_2_ignores_par_curve (g : globals) (v : pyval) :
  calculate_pt_current_2 (assign "downlink" "als_spectral_response" v g)
  = calculate_pt_current_2 g.
Proof.
  unfold calculate_pt_current_2. cbv zeta.
  destruct (par g !! "downlink") as [p|] eqn:Hp.
  - rewrite (getitem_assign _ _ _ _ _ Hp), (getitem_some _ _ _ Hp).
    unfold_monad. unfold getfloat, getitem.
    rewrite !lookup_insert_ne by done. reflexivity.
  - unfold getitem. simpl. rewrite lookup_alter_eq, Hp. reflexivity.
Qed.

End SecondDefinition.

(** ** The three-sample library *)

Lemma eff_pt_peaked : @eff_pt three_sample_colour peaked_response = 1.
Proof.
  unfold eff_pt, normalised, SpectralDistribution, peaked_response. simpl.
  rewrite (Rmax_left 1 0) by lra. rewrite (Rmax_right 0 1) by lra.
  unfold total. simpl. lra.
Qed.

Lemma eff_pt_flat : @eff_pt three_sample_colour flat_response = 2.006 / 3.
Proof.
  unfold eff_pt, normalised, SpectralDistribution, flat_response. simpl.
  rewrite (Rmax_left 1 1) by lra. rewrite (Rmax_left 1 1) by lra.
  unfold total. simpl. lra.
Qed.

Lemma three_sample_efficacy :
  400 < @luminous_efficacy three_sample_colour
          (@sd_CIE_standard_illuminant_A three_sample_colour) < 500.
Proof. simpl. unfold total. simpl. lra. Qed.

Lemma three_sample_irradiance : 0.2 < @irr_mw_per_cm2 three_sample_colour < 0.25.
Proof.
  unfold irr_mw_per_cm2. cbv zeta.
  pose proof three_sample_efficacy as [Hlo Hhi].
  set (e := @luminous_efficacy three_sample_colour _) in *.
  assert (He : 2 < 1000 / e < 2.5).
  { split.
    - apply Rmult_lt_reg_r with e; [lra|].
      replace (1000 / e * e) with 1000 by (field; lra). lra.
    - apply Rmult_lt_reg_r with e; [lra|].
      replace (1000 / e * e) with 1000 by (field; lra). lra. }
  lra.
Qed.

Lemma after_cell_par_downlink :
  ∃ p : gmap string pyval,
    par after_cell_par !! "downlink" = Some p ∧
    p !! "distance" = Some (VFloat 10e-3) ∧
    p !! "als_IPH3" = Some (VFloat 520e-6) ∧
    p !! "als_spectral_response" = Some (VCurve als_spectral_response) ∧
    p !! "led_spectral_response" = Some (VCurve led_spectral_response).
Proof. eexists. repeat (split; [reflexivity|]). reflexivity. Qed.

(** ** C7: where the reference irradiance comes from *)

(** C7, as stated, fails: with the three-sample library and [spec] bound to
    the peaked response, the second line shows the normalized response and
    it is not [als_IPH3 / (sigma * T^4 * eff_pt)]. *)
Lemma normalized_response_not_blackbody :
  @pt2_line three_sample_colour 1
     (Globals (par after_cell_par) (Some peaked_response))
    = Some (@normalized_response three_sample_colour 520e-6 peaked_response * 1e3) ∧
  @normalized_response three_sample_colour 520e-6 peaked_response
    ≠ @normalized_response_blackbody three_sample_colour 520e-6 peaked_response.
Proof.
  split.
  - destruct after_cell_par_downlink as (p & Hp & Hd & HI & _).
    unfold pt2_line.
    rewrite (calculate_pt_current_2_unfold _ p 10e-3 520e-6 peaked_response)
      by (done || lra).
    reflexivity.
  - unfold normalized_response, normalized_response_blackbody.
    rewrite eff_pt_peaked, !Rmult_1_r.
    pose proof three_sample_irradiance as [Hlo Hhi].
    set (i := @irr_mw_per_cm2 three_sample_colour) in *.
    assert (HP : 1 < @power_per_area three_sample_colour 2856).
    { unfold power_per_area. simpl. lra. }
    set (P := @power_per_area three_sample_colour 2856) in *.
    intros Heq.
    assert (Hi : 520e-6 / i * i = 520e-6) by (field; lra).
    assert (HPi : 520e-6 / P * P = 520e-6) by (field; lra).
    rewrite Heq in Hi.
    assert (0 < 520e-6 / P) by (apply Rdiv_lt_0_compat; lra).
    nra.
Qed.

Section BlackBody.
Context `{C : Colour}.

(** C7, amended.  The second definition prints the reference irradiance
    [1000 / luminous_efficacy(illuminant A) * 1e3 / 100 / 100] and the
    normalized response [als_IPH3 / (that irradiance * eff_pt)], in mA; the
    Stefan-Boltzmann [power_per_area] is computed and not used, so the run
    is the same for every value of [sigma]. *)
Theorem normalized_response_from_efficacy (g : globals) (p : gmap string pyval)
    (d als_IPH3 s : R) (c : curve) :
  par g !! "downlink" = Some p →
  p !! "distance" = Some (VFloat d) → d ≠ 0 →
  p !! "als_IPH3" = Some (VFloat als_IPH3) →
  spec g = Some c → curve_y c ≠ [] →
  let irr := 1000 / luminous_efficacy sd_CIE_standard_illuminant_A
             * 1e3 / 100 / 100 in
  run (calculate_pt_current_2 g) =
    ([Line "Irradiance of CIE standard illuminant at 1000 lx is "
           irr (Fixed 3) " mW/cm^2";
      Line "Normalized phototransistor response is "
           (als_IPH3 / (irr * eff_pt c) * 1e3) (Fixed 3) " mA @ 1mW/cm^2"],
     inr ()) ∧
  @calculate_pt_current_2 (with_sigma s C) g = @calculate_pt_current_2 C g.
Proof.
  intros Hp Hd Hnz HI Hc Hy irr. split.
  - by rewrite (calculate_pt_current_2_unfold g p d als_IPH3 c).
  - reflexivity.
Qed.

End BlackBody.

Lemma normalized_response_from_efficacy_witness :
  let C := three_sample_colour in
  let g := Globals (par after_cell_par) (Some peaked_response) in
  let irr := 1000 / @luminous_efficacy C (@sd_CIE_standard_illuminant_A C)
             * 1e3 / 100 / 100 in
  run (@calculate_pt_current_2 C g) =
    ([Line "Irradiance of CIE standard illuminant at 1000 lx is "
           irr (Fixed 3) " mW/cm^2";
      Line "Normalized phototransistor response is "
           (520e-6 / (irr * @eff_pt C peaked_response) * 1e3) (Fixed 3)
           " mA @ 1mW/cm^2"],
     inr ()) ∧
  @calculate_pt_current_2 (with_sigma 1 C) g = @calculate_pt_current_2 C g.
Proof.
  intros C g.
  apply (@normalized_response_from_efficacy C g
           (<["als_IPH3" := VFloat 520e-6]>
              (<["led_IV_typ" := VFloat 60e-3]>
              (<["als_spectral_response" := VCurve als_spectral_response]>
              (<["led_spectral_response" := VCurve led_spectral_response]> ∅)))
            ∪ <["distance" := VFloat 10e-3]> ∅)
           10e-3 520e-6 1 peaked_response).
  - reflexivity.
  - reflexivity.
  - lra.
  - reflexivity.
  - reflexivity.
  - discriminate.
Defined.

(** ** C10: the second definition reads the global [spec] *)

(** In a fresh kernel, after the cell that binds [par], the cell that binds
    [spec] leaves it at the downlink ALS curve. *)
Lemma cell_spec_after_cell_par :
  cell_spec after_cell_par
  = inr (Globals (par after_cell_par) (Some als_spectral_response)).
Proof. reflexivity. Qed.

(** The cell that binds [spec] copies the curve the table holds at that
    moment. *)
Lemma cell_spec_binds_par_curve (g : globals) (p : gmap string pyval) (c : curve) :
  par g !! "downlink" = Some p →
  p !! "als_spectral_response" = Some (VCurve c) →
  cell_spec g = inr (Globals (par g) (Some c)).
Proof.
  intros Hp Hc. unfold cell_spec, outcome, run.
  rewrite (getitem_some _ _ _ Hp). unfold getcurve, getitem. unfold_monad.
  rewrite Hc. reflexivity.
Qed.

Section GlobalSpec.
Context `{Colour}.

(** The amplitude of the curve bound to [spec] does not reach the output
    of the second definition. *)
Lemma calculate_pt_current_2_amplitude (par0 : gmap string (gmap string pyval))
    (c : curve) (k : R) :
  0 < k →
  calculate_pt_current_2 (Globals par0 (Some (scale_curve k c)))
  = calculate_pt_current_2 (Globals par0 (Some c)).
Proof.
  intros Hk. unfold calculate_pt_current_2, global_spec. cbn [spec par].
  unfold_monad.
  rewrite !SpectralDistribution_eta, normalise_scale by done. reflexivity.
Qed.

Lemma pt2_text_response (g : globals) (p : gmap string pyval)
    (d als_IPH3 : R) (c : curve) :
  par g !! "downlink" = Some p →
  p !! "distance" = Some (VFloat d) → d ≠ 0 →
  p !! "als_IPH3" = Some (VFloat als_IPH3) →
  spec g = Some c → curve_y c ≠ [] →
  pt2_text 1 g = Some (fixed_digits 3 (normalized_response als_IPH3 c * 1e3)).
Proof.
  intros Hp Hd Hnz HI Hc Hy. unfold pt2_text, pt2_line.
  by rewrite (calculate_pt_current_2_unfold g p d als_IPH3 c).
Qed.

(** C10, amended.  The second definition takes its curve from the global
    [spec], which the earlier cell binds to the ALS curve the table holds
    then: with [spec] unbound it raises [NameError]; it never reads
    [par['downlink']['als_spectral_response']]; the second line displays
    the [.3f] rendering of [als_IPH3 / (irradiance * eff_pt(spec))], so two
    states with the same [par] display different responses exactly when
    those renderings differ, and once two curves render differently what
    is displayed is not a function of [par] alone. *)
Theorem spec_read_from_globals (par0 : gmap string (gmap string pyval))
    (p : gmap string pyval) (s : option curve) (d als_IPH3 : R)
    (c0 c1 c2 : curve) :
  par0 !! "downlink" = Some p →
  p !! "distance" = Some (VFloat d) → d ≠ 0 →
  p !! "als_IPH3" = Some (VFloat als_IPH3) →
  p !! "als_spectral_response" = Some (VCurve c0) →
  curve_y c1 ≠ [] → curve_y c2 ≠ [] →
  fixed_digits 3 (normalized_response als_IPH3 c1 * 1e3)
    ≠ fixed_digits 3 (normalized_response als_IPH3 c2 * 1e3) →
  cell_spec (Globals par0 s) = inr (Globals par0 (Some c0)) ∧
  outcome (calculate_pt_current_2 (Globals par0 None)) = inl (NameError "spec") ∧
  (∀ v : pyval,
      calculate_pt_current_2
        (assign "downlink" "als_spectral_response" v (Globals par0 (Some c1)))
      = calculate_pt_current_2 (Globals par0 (Some c1))) ∧
  pt2_text 1 (Globals par0 (Some c1))
    = Some (fixed_digits 3 (normalized_response als_IPH3 c1 * 1e3)) ∧
  pt2_text 1 (Globals par0 (Some c2))
    = Some (fixed_digits 3 (normalized_response als_IPH3 c2 * 1e3)) ∧
  pt2_text 1 (Globals par0 (Some c1)) ≠ pt2_text 1 (Globals par0 (Some c2)) ∧
  ¬ ∃ f : gmap string (gmap string pyval) → option Z,
      ∀ g : globals, pt2_text 1 g = f (par g).
Proof.
  intros Hp Hd Hnz HI Hc0 Hy1 Hy2 Hne.
  pose proof (pt2_text_response (Globals par0 (Some c1)) p d als_IPH3 c1
                Hp Hd Hnz HI eq_refl Hy1) as H1.
  pose proof (pt2_text_response (Globals par0 (Some c2)) p d als_IPH3 c2
                Hp Hd Hnz HI eq_refl Hy2) as H2.
  assert (Hdiff : pt2_text 1 (Globals par0 (Some c1))
                  ≠ pt2_text 1 (Globals par0 (Some c2))).
  { rewrite H1, H2. intros [= Heq]. by apply Hne. }
  split; [by apply (cell_spec_binds_par_curve (Globals par0 s) p)|].
  split; [unfold outcome; by rewrite (calculate_pt_current_2_unbound _ p d)|].
  split; [intros v; apply calculate_pt_current_2_ignores_par_curve|].
  split; [done|]. split; [done|]. split; [done|].
  intros [f Hf]. apply Hdiff.
  by rewrite (Hf (Globals par0 (Some c1))), (Hf (Globals par0 (Some c2))).
Qed.

End GlobalSpec.

(** C10, as stated, fails: the peaked response and the same curve at twice
    the amplitude are two different values of [spec] over the same [par],
    and the second definition prints the same for both. *)
Lemma spec_amplitude_unseen :
  peaked_response ≠ scale_curve 2 peaked_response ∧
  @calculate_pt_current_2 three_sample_colour
     (Globals (par after_cell_par) (Some (scale_curve 2 peaked_response)))
  = @calculate_pt_current_2 three_sample_colour
     (Globals (par after_cell_par) (Some peaked_response)).
Proof.
  split.
  - unfold peaked_response, scale_curve. simpl. intros [= _ Heq _]. lra.
  - apply calculate_pt_current_2_amplitude. lra.
Qed.

(** With the three-sample library at the notebook's table, the peaked
    response displays [2.374] and the flat one [3.551]. *)
Lemma three_sample_peaked_text :
  fixed_digits 3 (@normalized_response three_sample_colour 520e-6 peaked_response * 1e3)
  = 2374%Z.
Proof.
  unfold fixed_digits, normalized_response. rewrite eff_pt_peaked.
  apply round_half_even_near;
    unfold irr_mw_per_cm2; simpl; unfold total; simpl; lra.
Qed.

Lemma three_sample_flat_text :
  fixed_digits 3 (@normalized_response three_sample_colour 520e-6 flat_response * 1e3)
  = 3551%Z.
Proof.
  unfold fixed_digits, normalized_response. rewrite eff_pt_flat.
  apply round_half_even_near;
    unfold irr_mw_per_cm2; simpl; unfold total; simpl; lra.
Qed.

Lemma spec_read_from_globals_witness :
  let C := three_sample_colour in
  let par0 := par after_cell_par in
  cell_spec (Globals par0 None) = inr (Globals par0 (Some als_spectral_response)) ∧
  outcome (@calculate_pt_current_2 C (Globals par0 None))
    = inl (NameError "spec") ∧
  (∀ v : pyval,
      @calculate_pt_current_2 C
        (assign "downlink" "als_spectral_response" v
           (Globals par0 (Some peaked_response)))
      = @calculate_pt_current_2 C (Globals par0 (Some peaked_response))) ∧
  @pt2_text C 1 (Globals par0 (Some peaked_response))
    = Some (fixed_digits 3 (@normalized_response C 520e-6 peaked_response * 1e3)) ∧
  @pt2_text C 1 (Globals par0 (Some flat_response))
    = Some (fixed_digits 3 (@normalized_response C 520e-6 flat_response * 1e3)) ∧
  @pt2_text C 1 (Globals par0 (Some peaked_response))
    ≠ @pt2_text C 1 (Globals par0 (Some flat_response)) ∧
  ¬ ∃ f : gmap string (gmap string pyval) → option Z,
      ∀ g : globals, @pt2_text C 1 g = f (par g).
Proof.
  intros C par0.
  apply (@spec_read_from_globals C par0
           (<["als_IPH3" := VFloat 520e-6]>
              (<["led_IV_typ" := VFloat 60e-3]>
              (<["als_spectral_response" := VCurve als_spectral_response]>
              (<["led_spectral_response" := VCurve led_spectral_response]> ∅)))
            ∪ <["distance" := VFloat 10e-3]> ∅)
           None 10e-3 520e-6 als_spectral_response peaked_response flat_response).
  - reflexivity.
  - reflexivity.
  - lra.
  - reflexivity.
  - reflexivity.
  - discriminate.
  - discriminate.
  - unfold C. rewrite three_sample_peaked_text, three_sample_flat_text. lia.
Defined.

(** * Further properties of the code *)

(** ** Edge behaviour of the photodiode calculator *)

(** A zero distance stops the calculator at the solid angle: it raises
    [ZeroDivisionError] and prints nothing, whatever else the section
    holds. *)
Theorem calculate_pd_current_zero_distance (g : globals) (p : gmap string pyval) :
  par g !! "uplink" = Some p →
  p !! "distance" = Some (VFloat 0) →
  run (calculate_pd_current g) = ([], inl ZeroDivisionError).
Proof.
  intros Hp Hd. unfold calculate_pd_current. cbv zeta.
  rewrite (getitem_some _ _ _ Hp), bind_mret. cbv beta.
  rewrite (getfloat_some _ _ _ Hd), bind_mret. cbv beta.
  rewrite angle_norm_zero. reflexivity.
Qed.

Lemma calculate_pd_current_zero_distance_witness :
  run (calculate_pd_current
         (Globals (<["uplink" := <["distance" := VFloat 0]> ∅]> ∅) None))
  = ([], inl ZeroDivisionError).
Proof.
  apply (calculate_pd_current_zero_distance _ (<["distance" := VFloat 0]> ∅));
    reflexivity.
Defined.

(** The calculator reads five keys of ['uplink'] and nothing else:
    assigning any other key of that section (['led_theta'] among them), or
    any key of another section, leaves the whole run as it was. *)
Theorem calculate_pd_current_reads_five_keys (g : globals) (sk k : string)
    (v : pyval) :
  sk ≠ "uplink" ∨
  (k ≠ "distance" ∧ k ≠ "led_Ie" ∧ k ≠ "led_current" ∧ k ≠ "pd_eff"
   ∧ k ≠ "pd_Ir0") →
  calculate_pd_current (assign sk k v g) = calculate_pd_current g.
Proof.
  intros [Hsk|(H1 & H2 & H3 & H4 & H5)].
  - unfold calculate_pd_current, getitem. simpl.
    by rewrite lookup_alter_ne by done.
  - destruct (decide (sk = "uplink")) as [->|Hsk].
    2: { unfold calculate_pd_current, getitem. simpl.
         by rewrite lookup_alter_ne by done. }
    unfold calculate_pd_current. cbv zeta.
    destruct (par g !! "uplink") as [p|] eqn:Hp.
    + rewrite (getitem_assign _ _ _ _ _ Hp), (getitem_some _ _ _ Hp).
      unfold_monad. unfold getfloat, getitem.
      rewrite !lookup_insert_ne by done. reflexivity.
    + unfold getitem. simpl. rewrite lookup_alter_eq, Hp. reflexivity.
Qed.

Lemma calculate_pd_current_reads_five_keys_witness :
  calculate_pd_current (assign "uplink" "led_theta" (VFloat 120) after_cell_par)
  = calculate_pd_current after_cell_par.
Proof.
  apply calculate_pd_current_reads_five_keys. right.
  repeat (split; [discriminate|]). discriminate.
Defined.

(** ** The merge loop and the photodiode calculator together *)

(** An ['uplink'] section without its own ['distance'] cannot be used
    before the merge loop has run ([KeyError], nothing printed); after the
    loop the calculator finds the distance of ['common']. *)
Theorem merge_supplies_distance (par0 : gmap string (gmap string pyval))
    (common up : gmap string pyval) (s : option curve) (d Ie I eff Ir0 : R) :
  par0 !! "common" = Some common →
  common !! "distance" = Some (VFloat d) →
  par0 !! "uplink" = Some up →
  up !! "distance" = None →
  up !! "led_Ie" = Some (VFloat Ie) →
  up !! "led_current" = Some (VFloat I) →
  up !! "pd_eff" = Some (VFloat eff) →
  up !! "pd_Ir0" = Some (VFloat Ir0) →
  run (calculate_pd_current (Globals par0 s)) = ([], inl (KeyError "distance")) ∧
  ∃ par' : gmap string (gmap string pyval),
    merge_defaults par0 = inr par' ∧
    pd_parameters (Globals par' s) d Ie I eff Ir0.
Proof.
  intros Hc Hd Hup Hnone HIe HI Heff HIr0. split.
  - unfold calculate_pd_current. cbv zeta. cbn [par].
    rewrite (getitem_some _ _ _ Hup), bind_mret. cbv beta.
    unfold getfloat, getitem. rewrite Hnone. reflexivity.
  - exists (merged common par0 par0). split; [by apply merge_defaults_closed|].
    exists (up ∪ common). simpl.
    split; [by apply merged_lookup_section|].
    split; [by rewrite lookup_union_r|].
    repeat split; by apply lookup_union_Some_l.
Qed.

Lemma merge_supplies_distance_witness :
  run (calculate_pd_current (Globals par_literal None))
    = ([], inl (KeyError "distance")) ∧
  ∃ par' : gmap string (gmap string pyval),
    merge_defaults par_literal = inr par' ∧
    pd_parameters (Globals par' None) 10e-3 (145.0e-3 / 100 * 20) 20e-3 32e-6 30e-9.
Proof.
  apply (merge_supplies_distance par_literal
           (<["distance" := VFloat 10e-3]> ∅)
           (<["led_Ie" := VFloat (145.0e-3 / 100 * 20)]>
             (<["led_theta" := VFloat 20]>
             (<["led_current" := VFloat 20e-3]>
             (<["pd_eff" := VFloat 32e-6]>
             (<["pd_Ir0" := VFloat 30e-9]> ∅))))));
    reflexivity.
Defined.

(** A ['distance'] set in the ['uplink'] section itself is the one the
    calculator uses after the merge loop, whatever ['common'] says. *)
Theorem section_distance_overrides_common (par0 : gmap string (gmap string pyval))
    (common : gmap string pyval) (s : option curve) (d Ie I eff Ir0 : R) :
  par0 !! "common" = Some common →
  pd_parameters (Globals par0 s) d Ie I eff Ir0 →
  ∃ par' : gmap string (gmap string pyval),
    merge_defaults par0 = inr par' ∧
    pd_parameters (Globals par' s) d Ie I eff Ir0 ∧
    calculate_pd_current (Globals par' s) = calculate_pd_current (Globals par0 s).
Proof.
  intros Hc (up & Hup & Hd & HIe & HI & Heff & HIr0). simpl in Hup.
  exists (merged common par0 par0). split; [by apply merge_defaults_closed|].
  assert (Hup' : merged common par0 par0 !! "uplink" = Some (up ∪ common))
    by (by apply merged_lookup_section).
  split.
  - exists (up ∪ common). simpl. split; [done|].
    repeat split; by apply lookup_union_Some_l.
  - unfold calculate_pd_current. cbv zeta. cbn [par].
    rewrite (getitem_some _ _ _ Hup'), (getitem_some _ _ _ Hup).
    unfold_monad. unfold getfloat, getitem.
    rewrite !(lookup_union_Some_l up common _ _ Hd),
      !(lookup_union_Some_l up common _ _ HIe),
      !(lookup_union_Some_l up common _ _ HI),
      !(lookup_union_Some_l up common _ _ Heff),
      !(lookup_union_Some_l up common _ _ HIr0).
    by rewrite Hd, HIe, HI, Heff, HIr0.
Qed.

Lemma section_distance_overrides_common_witness :
  ∃ par' : gmap string (gmap string pyval),
    merge_defaults (<["uplink" := <["distance" := VFloat 5e-3]>
                                    (par after_cell_par !!! "uplink")]>
                      par_literal) = inr par' ∧
    pd_parameters (Globals par' None) 5e-3 (145.0e-3 / 100 * 20) 20e-3 32e-6 30e-9 ∧
    calculate_pd_current (Globals par' None)
    = calculate_pd_current
        (Globals (<["uplink" := <["distance" := VFloat 5e-3]>
                                  (par after_cell_par !!! "uplink")]>
                    par_literal) None).
Proof.
  apply (section_distance_overrides_common _ (<["distance" := VFloat 10e-3]> ∅)).
  - reflexivity.
  - eexists. repeat (split; [reflexivity|]). reflexivity.
Defined.

(** ** More on the merge loop *)

Lemma merge_defaults_without_common_prefix
    (par0 : gmap string (gmap string pyval)) :
  par0 !! "common" = None →
  ∀ m : gmap string (gmap string pyval), m ⊆ par0 →
    (m = ∅ →
     map_fold (λ sk _ acc, match acc with
                           | inr p => merge_step sk p
                           | inl e => inl e
                           end) (inr par0) m = inr par0) ∧
    (m ≠ ∅ →
     map_fold (λ sk _ acc, match acc with
                           | inr p => merge_step sk p
                           | inl e => inl e
                           end) (inr par0) m = inl (KeyError "common")).
Proof.
  intros Hc m.
  apply (map_fold_weak_ind
           (λ acc m, m ⊆ par0 →
                     (m = ∅ → acc = inr par0) ∧
                     (m ≠ ∅ → acc = inl (KeyError "common")))).
  - intros _. split; [done|]. intros Hn. by destruct Hn.
  - intros sk sec m' acc Hsk IH Hsub.
    split; [intros He; by apply insert_non_empty in He|]. intros _.
    destruct IH as [IHe IHn]; [etrans; [by apply insert_subseteq|done]|].
    destruct (decide (m' = ∅)) as [He|Hn].
    + rewrite (IHe He). unfold merge_step.
      assert (Hpar : par0 !! sk = Some sec).
      { eapply lookup_weaken; [|exact Hsub]. apply lookup_insert_eq. }
      destruct (decide (sk = "common")) as [->|Hne]; [congruence|].
      by rewrite Hc.
    + by rewrite (IHn Hn).
Qed.

(** A table with sections but no ['common'] makes the loop raise
    [KeyError: 'common']; an empty table is left alone. *)
Theorem merge_defaults_without_common (par0 : gmap string (gmap string pyval)) :
  par0 !! "common" = None →
  merge_defaults par0 =
  if decide (par0 = ∅) then inr par0 else inl (KeyError "common").
Proof.
  intros Hc.
  destruct (merge_defaults_without_common_prefix par0 Hc par0) as [He Hn]; [done|].
  unfold merge_defaults. destruct (decide (par0 = ∅)); auto.
Qed.

Lemma merge_defaults_without_common_witness :
  merge_defaults (delete "common" par_literal) =
  if decide (delete "common" par_literal = ∅) then inr (delete "common" par_literal)
  else inl (KeyError "common").
Proof. apply merge_defaults_without_common. reflexivity. Defined.

(** Running the loop a second time changes nothing. *)
Theorem merge_defaults_idempotent (par0 par' : gmap string (gmap string pyval)) :
  merge_defaults par0 = inr par' →
  merge_defaults par' = inr par'.
Proof.
  intros Hm. destruct (par0 !! "common") as [common|] eqn:Hc.
  - rewrite (merge_defaults_closed par0 common Hc) in Hm.
    injection Hm as <-.
    rewrite (merge_defaults_closed _ common) by (by rewrite merged_lookup_common).
    f_equal. apply map_eq. intros sk.
    destruct (decide (sk = "common")) as [->|Hne].
    + by rewrite !merged_lookup_common.
    + destruct (par0 !! sk) as [sec|] eqn:Hsk.
      * rewrite (merged_lookup_section common (sec ∪ common) _ sk Hne)
          by (by apply merged_lookup_section).
        rewrite (merged_lookup_section common sec _ sk Hne Hsk).
        f_equal. rewrite <- (assoc_L (∪)). f_equal. apply (idemp (∪)).
      * assert (Hn : merged common par0 par0 !! sk = None).
        { unfold merged.
          rewrite lookup_union, lookup_fmap, lookup_delete_ne, Hsk by done.
          done. }
        unfold merged at 1.
        rewrite lookup_union, lookup_fmap, lookup_delete_ne, !Hn by done. done.
  - destruct (merge_defaults_without_common_prefix par0 Hc par0) as [He Hn];
      [done|].
    unfold merge_defaults in Hm.
    destruct (decide (par0 = ∅)) as [Hempty|Hfull].
    + rewrite (He Hempty) in Hm. injection Hm as <-. exact (He Hempty).
    + by rewrite (Hn Hfull) in Hm.
Qed.

Lemma merge_defaults_idempotent_witness :
  merge_defaults (par after_cell_par) = inr (par after_cell_par).
Proof.
  apply (merge_defaults_idempotent par_literal).
  apply (merge_defaults_closed par_literal (<["distance" := VFloat 10e-3]> ∅)).
  reflexivity.
Defined.

(** The loop adds the keys of ['common'] to a section and no others, and
    a section that already has them all is left as it was. *)
Theorem merge_defaults_keys (par0 par' : gmap string (gmap string pyval))
    (common sec : gmap string pyval) (sk : string) :
  par0 !! "common" = Some common →
  merge_defaults par0 = inr par' →
  sk ≠ "common" → par0 !! sk = Some sec →
  ∃ sec' : gmap string pyval,
    par' !! sk = Some sec' ∧
    dom sec' = dom sec ∪ dom common ∧
    (dom common ⊆ dom sec → sec' = sec).
Proof.
  intros Hc Hm Hne Hsk.
  rewrite (merge_defaults_closed par0 common Hc) in Hm. injection Hm as <-.
  exists (sec ∪ common). split; [by apply merged_lookup_section|].
  split; [apply dom_union_L|].
  intros Hsub. apply map_eq. intros k. rewrite lookup_union.
  destruct (sec !! k) as [v|] eqn:Hk; [by destruct (common !! k)|].
  destruct (common !! k) as [w|] eqn:Hw; [|done].
  exfalso. apply not_elem_of_dom in Hk. apply Hk, Hsub, elem_of_dom. eauto.
Qed.

Lemma merge_defaults_keys_witness :
  ∃ sec' : gmap string pyval,
    par after_cell_par !! "uplink" = Some sec' ∧
    dom sec' = dom (par_literal !!! "uplink" : gmap string pyval)
               ∪ dom (<["distance" := VFloat 10e-3]> ∅ : gmap string pyval) ∧
    (dom (<["distance" := VFloat 10e-3]> ∅ : gmap string pyval)
       ⊆ dom (par_literal !!! "uplink" : gmap string pyval) →
     sec' = par_literal !!! "uplink").
Proof.
  apply (merge_defaults_keys par_literal (par after_cell_par)
           (<["distance" := VFloat 10e-3]> ∅) (par_literal !!! "uplink") "uplink").
  - reflexivity.
  - apply (merge_defaults_closed par_literal (<["distance" := VFloat 10e-3]> ∅)).
    reflexivity.
  - discriminate.
  - reflexivity.
Defined.

(** ** The distance in the second phototransistor calculator *)

Section SecondDefinitionDistance.
Context `{Colour}.


End SecondDefinitionDistance.

(** * Concrete runs on binary64

    The notebook's own run, and the inputs at which the claims as the
    spec states them fail.  The runs are evaluated with [recorded_libm]. *)

Module Binary64Facts.

Import Floats Binary64.
Local Open Scope float_scope.

(** Two binary64 constants are told apart by evaluating [=?]. *)
Ltac float_neq y :=
  let H := fresh in
  intros H; apply (f_equal (λ x, x =? y)) in H; vm_compute in H; discriminate H.

(** On the notebook's own table the binary64 run prints the three numbers
    of the recorded output: [0.023] and [0.747] under [.3f], and
    [27.92910861784319]. *)
Lemma notebook_run :
  run (calculate_pd_current recorded_libm uplink) =
  ([Line "Photodiode irradiance: " 0x1.7eb088da5bf83p-6 (Fixed 3) " mW/cm^2";
    Line "Photodiode current: " 0x1.7eb088da5bf83p-1 (Fixed 3) " µA";
    Line "Photodiode SNR: " 0x1.bedda0ff8117ap+4 Repr " dB"],
   inr ()).
Proof. vm_compute. reflexivity. Qed.

(** C1, as stated, fails on binary64: at [s = 1e-2], [d = 3e-3] the
    expression of the program gives [3.3044021677083077] and the closed
    form [3.3044021677083073]. *)
Lemma closed_form_differs :
  let s := 0x1.47ae147ae147bp-7 (* 1e-2 *) in
  let d := 0x1.89374bc6a7efap-9 (* 3e-3 *) in
  (0 <? s) = true ∧ (0 <? d) = true ∧
  run (angle_norm recorded_libm s s d) = ([], inr 0x1.a6f6a67591c09p+1) ∧
  run (pyramid_solid_angle recorded_libm s d) = ([], inr 0x1.a6f6a67591c08p+1) ∧
  0x1.a6f6a67591c09p+1 ≠ 0x1.a6f6a67591c08p+1.
Proof.
  repeat split; try (vm_compute; reflexivity).
  float_neq 0x1.a6f6a67591c08p+1.
Qed.



(** C4, as stated, fails on binary64: on the notebook's table, three
    times [pd_eff] together with three times [pd_Ir0] turns the printed
    SNR [27.92910861784319] into [27.929108617843195]. *)
Lemma snr_not_scale_free :
  let k := 3 in
  let pd_eff := 0x1.0c6f7a0b5ed8dp-15 (* 32e-6 *) in
  let pd_Ir0 := 0x1.01b2b29a4692bp-25 (* 30e-9 *) in
  (0 <? k) = true ∧
  printed (run (calculate_pd_current recorded_libm uplink)) !! 2%nat
    = Some 0x1.bedda0ff8117ap+4 ∧
  printed (run (calculate_pd_current recorded_libm
                  (<["pd_Ir0" := k * pd_Ir0]>
                     (<["pd_eff" := k * pd_eff]> uplink)))) !! 2%nat
    = Some 0x1.bedda0ff8117bp+4 ∧
  0x1.bedda0ff8117ap+4 ≠ 0x1.bedda0ff8117bp+4.
Proof.
  repeat split; try (vm_compute; reflexivity).
  float_neq 0x1.bedda0ff8117bp+4.
Qed.


End Binary64Facts.
